(** * exsat-client validator: the endorsement reconciliation engine

    Shallow embedding of [src/validator/index.ts].  The module is a set of
    [async] functions over five global variables; every [await] is a point
    where the function is suspended and another cron handler may run.  The
    functions are therefore embedded in a resumption monad: a computation
    runs on the shared globals until it finishes or reaches an [await], and
    is resumed later with the answer of the external collaborator.

    Heights are JavaScript numbers holding block heights (integers far below
    2^53); they are modelled as [Z].  The one place where the source applies
    arithmetic to a value that is not a number is modelled with [JsNum],
    which has [NaN]. *)

From Stdlib Require Import ZArith List String Bool Lia Sorted.
Import ListNotations.
Local Open Scope string_scope.
Local Open Scope Z_scope.

(* ================================================================== *)
(** ** JavaScript values used by the module *)

Module Js.

(** A thrown value.  The source reads only [e.message]. *)
Record Error := mkError { message : option string }.

(** The settlement of an awaited promise. *)
Inductive Result (A : Type) : Type :=
| Returned (a : A)
| Threw (e : Error).
Arguments Returned {A} a.
Arguments Threw {A} e.

(** Numbers as far as the module needs them: an integer or [NaN]. *)
Inductive JsNum := Num (z : Z) | NaN.

(** [a - b] *)
Definition sub (a b : JsNum) : JsNum :=
  match a, b with
  | Num x, Num y => Num (x - y)
  | _, _ => NaN
  end.

(** [a < b]: every comparison with [NaN] is false. *)
Definition lt (a b : JsNum) : bool :=
  match a, b with
  | Num x, Num y => x <? y
  | _, _ => false
  end.

(** [a > b] *)
Definition gt (a b : JsNum) : bool := lt b a.

(** Truthiness of a string: the empty string is falsy. *)
Definition truthy_string (s : string) : bool :=
  match s with
  | EmptyString => false
  | String _ _ => true
  end.

(** [String.prototype.includes]: [sub] occurs somewhere in [s]. *)
Fixpoint includes (s sub : string) : bool :=
  String.prefix sub s
  || match s with
     | EmptyString => false
     | String _ s' => includes s' sub
     end.

(** [e.message || ''] *)
Definition message_or_empty (e : Error) : string :=
  match message e with
  | Some m => if truthy_string m then m else ""
  | None => ""
  end.

End Js.
Import Js.

(* ================================================================== *)
(** ** Data model *)

(** An entry of [requested_validators] / [provider_validators]. *)
Record Endorser := mkEndorser { account : string; staking : Z }.

(** A row of the endorsement table, as far as the module reads it. *)
Record Endorsement := mkEndorsement {
  requested_validators : list Endorser;
  provider_validators : list Endorser
}.

Record Chainstate := mkChainstate { irreversible_height : Z }.

(** The JSON-RPC answer of the bitcoin node: an object whose [result]
    field holds the value ([blockcountInfo.result], [blockhash.result]). *)
Record RpcResponse (T : Type) := mkRpc { result : T }.
Arguments mkRpc {T} result.
Arguments result {T} r.

(** Converting an object to a number ([ToNumber] of a plain object goes
    through [toString], which gives "[object Object]"): [NaN]. *)
Definition object_to_number {T} (_ : RpcResponse T) : JsNum := NaN.

(** The answer of [exsatApi.executeAction]; the source tests
    [result && result.transaction_id]. *)
Record ActionResult := mkActionResult { transaction_id : option string }.

(** The global variables of the module (lines 20-27). *)
Record RunState := mkRunState {
  endorseRunning : bool;
  endorseCheckRunning : bool;
  startupStatus : bool;
  lastEndorseHeight : Z;
  lastSubmittedHeight : Z
}.

(** [accountName] (assigned once in [main]) and [RETRY_INTERVAL_MS]. *)
Record Config := mkConfig { accountName : string; RETRY_INTERVAL_MS : Z }.

Definition initial_globals : RunState :=
  mkRunState false false false 0 0.

Definition set_endorseRunning (b : bool) (g : RunState) : RunState :=
  mkRunState b (endorseCheckRunning g) (startupStatus g)
             (lastEndorseHeight g) (lastSubmittedHeight g).
Definition set_endorseCheckRunning (b : bool) (g : RunState) : RunState :=
  mkRunState (endorseRunning g) b (startupStatus g)
             (lastEndorseHeight g) (lastSubmittedHeight g).
Definition set_startupStatus (b : bool) (g : RunState) : RunState :=
  mkRunState (endorseRunning g) (endorseCheckRunning g) b
             (lastEndorseHeight g) (lastSubmittedHeight g).
Definition set_lastEndorseHeight (h : Z) (g : RunState) : RunState :=
  mkRunState (endorseRunning g) (endorseCheckRunning g) (startupStatus g)
             h (lastSubmittedHeight g).
Definition set_lastSubmittedHeight (h : Z) (g : RunState) : RunState :=
  mkRunState (endorseRunning g) (endorseCheckRunning g) (startupStatus g)
             (lastEndorseHeight g) h.

(* ================================================================== *)
(** ** External collaborators and observable events *)

(** The calls the module awaits. *)
Inductive Call :=
| GetStartupStatus                                   (* tableApi.getStartupStatus() *)
| GetChainstate                                      (* tableApi.getChainstate() *)
| GetEndorsementByBlockId (height : Z) (hash : string)
| GetBlockCount                                      (* getblockcount() *)
| GetBlockHash (height : Z)                          (* getblockhash(i) *)
| ExecuteAction (validator : string) (height : Z) (hash : string)
                                                     (* executeAction(blkendt, 'endorse', ..) *)
| Sleep (ms : Z).                                    (* sleep(RETRY_INTERVAL_MS) *)

(** What each call resolves to. *)
Definition Resp (c : Call) : Type :=
  match c with
  | GetStartupStatus => bool
  | GetChainstate => option Chainstate
  | GetEndorsementByBlockId _ _ => option Endorsement
  | GetBlockCount => RpcResponse Z
  | GetBlockHash _ => RpcResponse string
  | ExecuteAction _ _ _ => option ActionResult
  | Sleep _ => unit
  end.

Inductive Level := Info | Err.

(** The log lines of the module, one constructor per template. *)
Inductive Msg :=
| SubmitSuccess (validator : string) (height : Z) (hash : string) (tx : string)
| BlockParsed (height : Z) (hash : string)
| WaitEnabled (height : Z) (hash : string)
| SubmitFailed (validator : string) (height : Z) (hash : string) (e : Error)
| NotLaunched
| EndorseSkipping
| EndorseTaskRunning
| EndorseTaskError (e : Error)
| EndorseCheckTaskRunning
| GetChainstateError
| CheckEndorsement (i tip : Z)
| EndorseCheckTaskError (e : Error).

(** What the process does that can be seen from outside. *)
Inductive Event :=
| EvCall (c : Call)
| EvLog (l : Level) (m : Msg).

(** The shared state between two suspensions: the globals and the events
    so far, oldest first. *)
Record World := mkWorld { globals : RunState; trace : list Event }.

Definition initial_world : World := mkWorld initial_globals [].

(* ================================================================== *)
(** ** The resumption monad *)

(** A computation started on a world either finishes, or is suspended at an
    [await] with the world it leaves behind; it is resumed with the
    settlement of the call and the world as it is by then. *)
Inductive Coro (A : Type) : Type :=
| Done (r : Result A) (w : World)
| Await (c : Call) (k : Result (Resp c) -> World -> Coro A) (w : World).
Arguments Done {A} r w.
Arguments Await {A} c k w.

Definition M (A : Type) : Type := World -> Coro A.

Definition ret {A} (a : A) : M A := fun w => Done (Returned a) w.

Fixpoint bindC {A B} (c : Coro A) (f : A -> M B) : Coro B :=
  match c with
  | Done (Returned a) w => f a w
  | Done (Threw e) w => Done (Threw e) w
  | Await c k w => Await c (fun r w' => bindC (k r w') f) w
  end.

Definition bind {A B} (m : M A) (f : A -> M B) : M B :=
  fun w => bindC (m w) f.

Declare Scope coro_scope.
Delimit Scope coro_scope with coro.
Notation "x <- m ;; k" := (bind m (fun x => k))
  (at level 61, m at next level, right associativity) : coro_scope.
Notation "m ;; k" := (bind m (fun _ => k))
  (at level 61, right associativity) : coro_scope.
Local Open Scope coro_scope.

(** [try { m } catch (e) { h e }] *)
Fixpoint catchC {A} (c : Coro A) (h : Error -> M A) : Coro A :=
  match c with
  | Done (Returned a) w => Done (Returned a) w
  | Done (Threw e) w => h e w
  | Await c k w => Await c (fun r w' => catchC (k r w') h) w
  end.

Definition try_catch {A} (m : M A) (h : Error -> M A) : M A :=
  fun w => catchC (m w) h.

(** [try { m } finally { fin }]: [fin] runs on every exit of [m], and the
    settlement of [m] stands unless [fin] itself throws. *)
Fixpoint finallyC {A} (c : Coro A) (fin : M unit) : Coro A :=
  match c with
  | Done r w => bindC (fin w) (fun _ w' => Done r w')
  | Await c k w => Await c (fun r w' => finallyC (k r w') fin) w
  end.

Definition try_finally {A} (m : M A) (fin : M unit) : M A :=
  fun w => finallyC (m w) fin.

(** Reading and writing the globals, logging, awaiting. *)
Definition get : M RunState := fun w => Done (Returned (globals w)) w.
Definition modify (f : RunState -> RunState) : M unit :=
  fun w => Done (Returned tt) (mkWorld (f (globals w)) (trace w)).
Definition emit (e : Event) : M unit :=
  fun w => Done (Returned tt) (mkWorld (globals w) (trace w ++ [e])).
Definition logger_info (m : Msg) : M unit := emit (EvLog Info m).
Definition logger_error (m : Msg) : M unit := emit (EvLog Err m).

(** [await c]: the call is issued, the function is suspended, and it goes on
    with the value the promise resolves to, or throws what it rejects
    with. *)
Definition await (c : Call) : M (Resp c) :=
  fun w => Await c (fun r w' => Done r w') (mkWorld (globals w) (trace w ++ [EvCall c])).

(* ================================================================== *)
(** ** The functions of [validator/index.ts] *)

(** Lines 31-36. *)
Definition isEndorserQualified (endorsers : list Endorser) (accountName : string) : bool :=
  existsb (fun endorser => String.eqb (account endorser) accountName) endorsers.

(** Lines 53-70. *)
Definition submitEndorsement (validator : string) (height : Z) (hash : string) : M unit :=
  try_catch
    (result <- await (ExecuteAction validator height hash) ;;
     match result with
     | Some r =>
         match transaction_id r with
         | Some tx =>
             if truthy_string tx then
               modify (set_lastEndorseHeight height) ;;
               logger_info (SubmitSuccess validator height hash tx)
             else ret tt
         | None => ret tt
         end
     | None => ret tt
     end)
    (fun e =>
       let errorMessage := message_or_empty e in
       if includes errorMessage
            "blkendt.xsat::endorse: the block has been parsed and does not need to be endorsed"
       then logger_info (BlockParsed height hash)
       else if includes errorMessage
            "blkendt.xsat::endorse: the current endorsement status is disabled"
       then logger_info (WaitEnabled height hash)
       else logger_error (SubmitFailed validator height hash e)).

(** Lines 39-50. *)
Definition checkAndSubmitEndorsement (accountName : string) (height : Z) (hash : string)
  : M unit :=
  endorsement <- await (GetEndorsementByBlockId height hash) ;;
  match endorsement with
  | Some endorsement =>
      let isQualified := isEndorserQualified (requested_validators endorsement) accountName in
      if isQualified
         && negb (isEndorserQualified (provider_validators endorsement) accountName)
      then
        submitEndorsement accountName height hash ;;
        modify (set_lastSubmittedHeight height)
      else ret tt
  | None => submitEndorsement accountName height hash
  end.

(** Lines 76-82 and 103-109: the startup gate.  [k] is the rest of the
    handler, which the [return] of line 80 / 107 skips. *)
Definition startup_gate (k : M unit) : M unit :=
  g <- get ;;
  if negb (startupStatus g) then
    s <- await GetStartupStatus ;;
    modify (set_startupStatus s) ;;
    if negb s then logger_info NotLaunched
    else k
  else k.

(** Lines 75-99: the handler of the regular endorsement cron job.  The test
    of [endorseRunning] and its [return] are inside the [try], so the
    [finally] runs on that path as well. *)
Definition endorseTick (cfg : Config) : M unit :=
  startup_gate
    (try_finally
       (try_catch
          (g <- get ;;
           if endorseRunning g then
             logger_info EndorseSkipping
           else
             modify (set_endorseRunning true) ;;
             logger_info EndorseTaskRunning ;;
             blockcountInfo <- await GetBlockCount ;;
             blockhashInfo <- await (GetBlockHash (result blockcountInfo)) ;;
             checkAndSubmitEndorsement (accountName cfg)
               (result blockcountInfo) (result blockhashInfo))
          (fun e =>
             logger_error (EndorseTaskError e) ;;
             await (Sleep (RETRY_INTERVAL_MS cfg))))
       (modify (set_endorseRunning false))).

(** Lines 122-125: where the scan starts.  The second operand compares
    [lastEndorseHeight] with [blockcount - 6], [blockcount] being the
    answer object of [getblockcount], not its [result]. *)
Definition startEndorseHeight (chainstate : Chainstate) (lastEndorseHeight : Z)
           (blockcount : RpcResponse Z) : Z :=
  let startEndorseHeight := irreversible_height chainstate + 1 in
  if gt (Num lastEndorseHeight) (Num startEndorseHeight)
     && lt (Num lastEndorseHeight) (sub (object_to_number blockcount) (Num 6))
  then lastEndorseHeight
  else startEndorseHeight.

(** Lines 126-130: [for (let i = start; i <= blockcount.result; i++)].
    [fuel] bounds the number of iterations; [scan_fuel] is enough of it. *)
Fixpoint scan_loop (fuel : nat) (accountName : string) (tip : Z) (i : Z) : M unit :=
  match fuel with
  | O => ret tt
  | S fuel' =>
      if i <=? tip then
        blockhash <- await (GetBlockHash i) ;;
        logger_info (CheckEndorsement i tip) ;;
        checkAndSubmitEndorsement accountName i (result blockhash) ;;
        scan_loop fuel' accountName tip (i + 1)
      else ret tt
  end.

Definition scan_fuel (start tip : Z) : nat := Z.to_nat (tip - start + 1).

Definition scan (accountName : string) (start tip : Z) : M unit :=
  scan_loop (scan_fuel start tip) accountName tip start.

(** Lines 102-137: the handler of the catch-up cron job. *)
Definition endorseCheckTick (cfg : Config) : M unit :=
  startup_gate
    (g <- get ;;
     if endorseCheckRunning g then ret tt
     else
       modify (set_endorseCheckRunning true) ;;
       try_finally
         (try_catch
            (logger_info EndorseCheckTaskRunning ;;
             chainstate <- await GetChainstate ;;
             match chainstate with
             | None => logger_error GetChainstateError
             | Some chainstate =>
                 blockcount <- await GetBlockCount ;;
                 g <- get ;;
                 scan (accountName cfg)
                      (startEndorseHeight chainstate (lastEndorseHeight g) blockcount)
                      (result blockcount)
             end)
            (fun e =>
               logger_error (EndorseCheckTaskError e) ;;
               await (Sleep (RETRY_INTERVAL_MS cfg))))
         (modify (set_endorseCheckRunning false))).

(** Lines 169-171: what [/ping] reports. *)
Definition ping (w : World) : Z := lastSubmittedHeight (globals w).

(* ================================================================== *)
(** ** Semantics *)

(** *** One handler alone

    The collaborators are an oracle: what the [t]-th awaited call settles
    to.  Indexing by [t] lets the answers change over time (the ledger
    moves between two reads); nothing else is assumed of them. *)
Definition Env : Type := nat -> forall c : Call, Result (Resp c).

(** Runs a computation to its end when no other handler runs in between:
    the world a suspension leaves is the world it resumes on. *)
Fixpoint run {A} (env : Env) (t : nat) (c : Coro A) : Result A * World * nat :=
  match c with
  | Done r w => (r, w, t)
  | Await c k w => run env (S t) (k (env t c) w)
  end.

Definition exec {A} (env : Env) (t : nat) (m : M A) (w : World)
  : Result A * World * nat :=
  run env t (m w).

Definition outcome {A} (x : Result A * World * nat) : Result A := fst (fst x).
Definition final {A} (x : Result A * World * nat) : World := snd (fst x).
Definition clock {A} (x : Result A * World * nat) : nat := snd x.

(** *** Several handlers in flight

    A suspended handler waits for one call.  The cron scheduler fires
    handlers; the event loop settles pending calls in any order.  A handler
    runs alone from where it is resumed to its next [await]. *)
Record Suspended := mkSuspended {
  awaiting : Call;
  resume : Result (Resp awaiting) -> World -> Coro unit
}.

Record System := mkSystem { world : World; pool : list Suspended }.

Definition park (c : Coro unit) (others : list Suspended) : System :=
  match c with
  | Done _ w => mkSystem w others
  | Await c k w => mkSystem w (others ++ [mkSuspended c k])
  end.

Inductive Action :=
| Fire (handler : M unit)
| Settle (i : nat) (answer : forall c : Call, Result (Resp c)).

Definition step (s : System) (a : Action) : System :=
  match a with
  | Fire handler => park (handler (world s)) (pool s)
  | Settle i answer =>
      match nth_error (pool s) i with
      | Some task =>
          park (resume task (answer (awaiting task)) (world s))
               (firstn i (pool s) ++ skipn (S i) (pool s))
      | None => s
      end
  end.

Definition schedule (s : System) (l : list Action) : System := fold_left step l s.

(* ================================================================== *)
(** ** Observations on a trace *)

(** The Submitter's first act is the ledger write: each invocation of
    [submitEndorsement] shows as one [ExecuteAction] call. *)
Definition is_submission (e : Event) : bool :=
  match e with
  | EvCall (ExecuteAction _ _ _) => true
  | _ => false
  end.

Definition submissions (tr : list Event) : nat :=
  List.length (filter is_submission tr).

(** The Reconciler's first act is the ledger read: the heights handed to
    [checkAndSubmitEndorsement], in the order of the calls. *)
Definition reconciled (tr : list Event) : list Z :=
  flat_map (fun e => match e with
                     | EvCall (GetEndorsementByBlockId h _) => [h]
                     | _ => []
                     end) tr.

(** [S, S+1, ..., S+n-1] *)
Fixpoint heights_from (s : Z) (n : nat) : list Z :=
  match n with
  | O => []
  | S n' => s :: heights_from (s + 1) n'
  end.

(** A ledger write succeeds when its answer carries a transaction id. *)
Definition write_succeeds (r : Result (option ActionResult)) : bool :=
  match r with
  | Returned (Some a) =>
      match transaction_id a with
      | Some tx => truthy_string tx
      | None => false
      end
  | _ => false
  end.

(* ================================================================== *)
(** ** Closed forms used in the proofs *)

(** What [submitEndorsement] logs for each settlement of the ledger write. *)
Definition submit_log (validator : string) (height : Z) (hash : string)
           (r : Result (option ActionResult)) : list Event :=
  match r with
  | Returned (Some a) =>
      match transaction_id a with
      | Some tx =>
          if truthy_string tx
          then [EvLog Info (SubmitSuccess validator height hash tx)]
          else []
      | None => []
      end
  | Returned None => []
  | Threw e =>
      if includes (message_or_empty e)
           "blkendt.xsat::endorse: the block has been parsed and does not need to be endorsed"
      then [EvLog Info (BlockParsed height hash)]
      else if includes (message_or_empty e)
           "blkendt.xsat::endorse: the current endorsement status is disabled"
      then [EvLog Info (WaitEnabled height hash)]
      else [EvLog Err (SubmitFailed validator height hash e)]
  end.

(** The world after [submitEndorsement], given how the write settled. *)
Definition submit_world (validator : string) (height : Z) (hash : string)
           (r : Result (option ActionResult)) (w : World) : World :=
  mkWorld (if write_succeeds r
           then set_lastEndorseHeight height (globals w)
           else globals w)
          (trace w ++ [EvCall (ExecuteAction validator height hash)]
                  ++ submit_log validator height hash r).

(** The world after a call has been issued. *)
Definition call_world (c : Call) (w : World) : World :=
  mkWorld (globals w) (trace w ++ [EvCall c]).

(** The test of line 43. *)
Definition pending (e : Endorsement) (accountName : string) : bool :=
  isEndorserQualified (requested_validators e) accountName
  && negb (isEndorserQualified (provider_validators e) accountName).

(* ================================================================== *)
(** ** Concrete collaborators *)

(** An oracle given call by call. *)
Record Oracle := mkOracle {
  on_getStartupStatus : nat -> Result bool;
  on_getChainstate : nat -> Result (option Chainstate);
  on_getEndorsementByBlockId : nat -> Z -> string -> Result (option Endorsement);
  on_getblockcount : nat -> Result (RpcResponse Z);
  on_getblockhash : nat -> Z -> Result (RpcResponse string);
  on_executeAction : nat -> string -> Z -> string -> Result (option ActionResult)
}.

Definition env_of (o : Oracle) : Env :=
  fun t c =>
    match c return Result (Resp c) with
    | GetStartupStatus => on_getStartupStatus o t
    | GetChainstate => on_getChainstate o t
    | GetEndorsementByBlockId h hash => on_getEndorsementByBlockId o t h hash
    | GetBlockCount => on_getblockcount o t
    | GetBlockHash h => on_getblockhash o t h
    | ExecuteAction v h hash => on_executeAction o t v h hash
    | Sleep _ => Returned tt
    end.

Definition me : Endorser := mkEndorser "me" 100.

(** A launched network at tip 510 with irreversible height 500, block
    hashes "h", every ledger write accepted; the ledger read and write are
    given. *)
Definition network
           (read : nat -> Z -> string -> Result (option Endorsement))
           (write : nat -> string -> Z -> string -> Result (option ActionResult))
  : Env :=
  env_of (mkOracle (fun _ => Returned true)
                   (fun _ => Returned (Some (mkChainstate 500)))
                   read
                   (fun _ => Returned (mkRpc 510))
                   (fun _ _ => Returned (mkRpc "h"))
                   write).

Definition accepted : nat -> string -> Z -> string -> Result (option ActionResult) :=
  fun _ _ _ _ => Returned (Some (mkActionResult (Some "tx1"))).

Definition rejected (msg : string)
  : nat -> string -> Z -> string -> Result (option ActionResult) :=
  fun _ _ _ _ => Threw (mkError (Some msg)).

(** No record yet; "me" requested and not yet a provider; "me" already a
    provider. *)
Definition record_absent : nat -> Z -> string -> Result (option Endorsement) :=
  fun _ _ _ => Returned None.
Definition record_pending : nat -> Z -> string -> Result (option Endorsement) :=
  fun _ _ _ => Returned (Some (mkEndorsement [me] [])).
Definition record_provided : nat -> Z -> string -> Result (option Endorsement) :=
  fun _ _ _ => Returned (Some (mkEndorsement [me] [me])).

Definition cfg_me : Config := mkConfig "me" 2000.

(* ================================================================== *)
(** ** The specification's wording, for comparison *)

(** Start-height selection as the specification words it: [L] when
    [L > I+1] and [L < tip - 6], else [I+1]. *)
Definition spec_startHeight (I L tip : Z) : Z :=
  if (L >? I + 1) && (L <? tip - 6) then L else I + 1.

(** The globals once the network is launched and block 503 has been
    endorsed. *)
Definition world_after_503 : World :=
  mkWorld (mkRunState false false true 503 503) [].

(** A success line of the Submitter among the events added since [before]. *)
Definition is_success_log (e : Event) : bool :=
  match e with
  | EvLog Info (SubmitSuccess _ _ _ _) => true
  | _ => false
  end.

Definition succeeded_since (before after : World) : bool :=
  existsb is_success_log (skipn (List.length (trace before)) (trace after)).

(** "lastSubmittedHeight is set to height exactly when a submission
    succeeds, and is left unchanged otherwise." *)
Definition lastSubmitted_tracks_success
           (env : Env) (t : nat) (accountName : string) (height : Z) (hash : string)
           (w : World) : Prop :=
  let x := exec env t (checkAndSubmitEndorsement accountName height hash) w in
  if succeeded_since w (final x)
  then ping (final x) = height
  else ping (final x) = ping w.

(** "A ledger-write failure whose message contains [marker] is logged at
    informational level, does not propagate, and leaves lastEndorseHeight
    unchanged." *)
Definition benign_on_marker (marker : string)
           (env : Env) (t : nat) (validator : string) (height : Z) (hash : string)
           (w : World) : Prop :=
  forall e msg,
    env t (ExecuteAction validator height hash) = Threw e ->
    message e = Some msg ->
    includes msg marker = true ->
    let x := exec env t (submitEndorsement validator height hash) w in
    (exists m, trace (final x) =
               (trace w ++ [EvCall (ExecuteAction validator height hash);
                            EvLog Info m])%list)
    /\ outcome x = Returned tt
    /\ lastEndorseHeight (globals (final x)) = lastEndorseHeight (globals w).

(** The markers [submitEndorsement] looks for (lines 62 and 64). *)
Definition parsed_marker : string :=
  "blkendt.xsat::endorse: the block has been parsed and does not need to be endorsed".
Definition disabled_marker : string :=
  "blkendt.xsat::endorse: the current endorsement status is disabled".

(** The world after a log line. *)
Definition log_world (l : Level) (m : Msg) (w : World) : World :=
  mkWorld (globals w) (trace w ++ [EvLog l m]).

(** The block-hash lookups and the ledger reads never fail. *)
Definition reads_return (env : Env) : Prop :=
  (forall t h, exists blockhash, env t (GetBlockHash h) = Returned blockhash)
  /\ (forall t h hash, exists r, env t (GetEndorsementByBlockId h hash) = Returned r).

(** "Every error raised while reconciling height [k] aborts the rest of
    the scan": no height after [k] is handed to the Reconciler. *)
Definition aborts_after (k : Z) (tr : list Event) : Prop :=
  forall j, In j (reconciled tr) -> j <= k.

(** An unexpected ledger-write failure was logged for [height]. *)
Definition write_failed_at (height : Z) (tr : list Event) : Prop :=
  exists v hash e, In (EvLog Err (SubmitFailed v height hash e)) tr.

(** The ledger as it is seen after a downtime: block 501 is
    still waiting for "me"; block 510 waits for "me" until the regular
    cycle has endorsed it (its write is the fifth call); "me" is a
    provider of every other block. *)
Definition ledger_after_downtime : nat -> Z -> string -> Result (option Endorsement) :=
  fun t h _ =>
    if h =? 501 then Returned (Some (mkEndorsement [me] []))
    else if (h =? 510) && (t <? 5)%nat then Returned (Some (mkEndorsement [me] []))
    else Returned (Some (mkEndorsement [me] [me])).

(** The network above, with the bitcoin node failing to answer for the
    hash of block [k]. *)
Definition network_without_block (k : Z)
           (read : nat -> Z -> string -> Result (option Endorsement))
           (write : nat -> string -> Z -> string -> Result (option ActionResult))
  : Env :=
  env_of (mkOracle (fun _ => Returned true)
                   (fun _ => Returned (Some (mkChainstate 500)))
                   read
                   (fun _ => Returned (mkRpc 510))
                   (fun _ h => if h =? k then Threw (mkError (Some "ETIMEDOUT"))
                               else Returned (mkRpc "h"))
                   write).

(** The calls the suspended handlers are waiting for. *)
Definition waiting_for (s : System) : list Call := map awaiting (pool s).

(** The process right after [main]: nothing in flight. *)
Definition initial_system : System := mkSystem initial_world [].

(** Every pending call answered as the launched network does. *)
Definition launched : forall c : Call, Result (Resp c) :=
  network record_pending accepted 0%nat.

(** Three ticks of one cron job, the first of them already past the
    startup gate and waiting for its first answer when the next two fire. *)
Definition three_ticks (handler : M unit) : list Action :=
  [Fire handler; Settle 0 launched; Fire handler; Fire handler].

(** The event loop then answers whichever call has waited longest, [n]
    times. *)
Definition answers (n : nat) : list Action := repeat (Settle 0 launched) n.

(* ================================================================== *)
(** ** The catch-up guard under every schedule *)

Definition guard (w : World) : bool := endorseCheckRunning (globals w).

(** [keeps b c]: started with the catch-up guard at [b], the computation
    never writes it, however the rest of the process moves it between two
    suspensions. *)
Fixpoint keeps {A} (b : bool) (c : Coro A) : Prop :=
  match c with
  | Done _ w => guard w = b
  | Await _ k w => guard w = b /\ forall r w', keeps (guard w') (k r w')
  end.

Definition keepsM {A} (m : M A) : Prop := forall w, keeps (guard w) (m w).

(** [in_cycle c]: [c] is the rest of a catch-up cycle.  It holds the guard:
    it leaves it set at every suspension, and it ends with the guard
    cleared. *)
Fixpoint in_cycle (c : Coro unit) : Prop :=
  match c with
  | Done _ w => guard w = false
  | Await _ k w =>
      guard w = true /\ forall r w', guard w' = true -> in_cycle (k r w')
  end.

(** [outside b c]: started with the guard at [b], [c] is not in a catch-up
    cycle: up to its next suspension it leaves the guard alone, or it finds
    the guard free, takes it and begins a cycle. *)
Fixpoint outside (b : bool) (c : Coro unit) : Prop :=
  match c with
  | Done _ w => guard w = b
  | Await _ k w =>
      (guard w = b /\ forall r w', outside (guard w') (k r w'))
      \/ (b = false /\ guard w = true
          /\ forall r w', guard w' = true -> in_cycle (k r w'))
  end.

Definition task_outside (task : Suspended) : Prop :=
  forall r w', outside (guard w') (resume task r w').

Definition task_in_cycle (task : Suspended) : Prop :=
  forall r w', guard w' = true -> in_cycle (resume task r w').

(** [one_cycle b l]: the suspended handlers [l] are outside any catch-up
    cycle, but for exactly one of them when [b] is true. *)
Inductive one_cycle : bool -> list Suspended -> Prop :=
| oc_nil : one_cycle false []
| oc_outside b task l :
    task_outside task -> one_cycle b l -> one_cycle b (task :: l)
| oc_in_cycle task l :
    task_in_cycle task -> one_cycle false l -> one_cycle true (task :: l).

(** The guard is set exactly while one catch-up cycle is in flight. *)
Definition guard_consistent (s : System) : Prop :=
  one_cycle (guard (world s)) (pool s).

(** What the process does: the two cron jobs fire, pending calls settle. *)
Inductive legit (cfg : Config) : Action -> Prop :=
| legit_endorse : legit cfg (Fire (endorseTick cfg))
| legit_endorseCheck : legit cfg (Fire (endorseCheckTick cfg))
| legit_settle i answer : legit cfg (Settle i answer).

(* ================================================================== *)
(** ** The Submitter, whatever the ledger write rejects with *)

(* A truthy message that is not a string and yet has an [includes] of its
   own (an array) is left out. *)








(* ================================================================== *)
(** ** What a cycle lets the probe see *)

(** The worlds a computation run alone leaves at its suspensions, in
    order: what another handler, or [/ping], finds when it runs there. *)
Fixpoint suspensions {A} (env : Env) (t : nat) (c : Coro A) : list World :=
  match c with
  | Done _ _ => []
  | Await c k w => w :: suspensions env (S t) (k (env t c) w)
  end.

(** Those worlds, and the world the computation ends on.  Line 45, the
    only assignment of [lastSubmittedHeight], is followed by the next
    [await] of the scan or by the end of the handler before it can run
    again, so the history shows every value the global takes. *)
Definition history {A} (env : Env) (t : nat) (m : M A) (w : World) : list World :=
  suspensions env t (m w) ++ [final (exec env t m w)].

Definition ping_history {A} (env : Env) (t : nat) (m : M A) (w : World) : list Z :=
  map ping (history env t m w).

(** "Once the cycle has changed the value, it never decreases": the list
    is the start value some number of times, and from there on it is in
    non-decreasing order. *)
Definition rises_once_changed (v0 : Z) (l : list Z) : Prop :=
  exists n rest, l = (repeat v0 n ++ rest)%list /\ StronglySorted Z.le rest.





(** A regular cycle after a downtime: it endorses the tip, 510.  The
    world it leaves, and the time it ends. *)
Definition after_regular_cycle : Result unit * World * nat :=
  exec (network ledger_after_downtime accepted) 0 (endorseTick cfg_me) initial_world.

(* ================================================================== *)
(** ** Further observations on a trace *)

(** The ledger writes, with their arguments, in order. *)
Definition writes (tr : list Event) : list (string * Z * string) :=
  flat_map (fun e => match e with
                     | EvCall (ExecuteAction v h hash) => [(v, h, hash)]
                     | _ => []
                     end) tr.

(** The back-off sleeps, with their durations, in order. *)
Definition sleeps (tr : list Event) : list Z :=
  flat_map (fun e => match e with
                     | EvCall (Sleep ms) => [ms]
                     | _ => []
                     end) tr.

(** The polls of the startup status. *)
Definition gate_polls (tr : list Event) : nat :=
  List.length (filter (fun e => match e with
                                | EvCall GetStartupStatus => true
                                | _ => false
                                end) tr).

(** The guard of the regular job cleared. *)
Definition release (w : World) : World :=
  mkWorld (set_endorseRunning false (globals w)) (trace w).

(** The guard of the catch-up job cleared. *)
Definition releaseCheck (w : World) : World :=
  mkWorld (set_endorseCheckRunning false (globals w)) (trace w).

(** How a cycle of the regular job ends (lines 93-98), given how its body
    ended: an error is logged and followed by one sleep; the guard is
    cleared in every case. *)
Definition end_of_endorse (env : Env) (cfg : Config)
           (x : Result unit * World * nat) : Result unit * World * nat :=
  match x with
  | (Returned _, w, t) => (Returned tt, release w, t)
  | (Threw e, w, t) =>
      let w1 := call_world (Sleep (RETRY_INTERVAL_MS cfg))
                           (log_world Err (EndorseTaskError e) w) in
      match env t (Sleep (RETRY_INTERVAL_MS cfg)) with
      | Returned _ => (Returned tt, release w1, S t)
      | Threw e' => (Threw e', release w1, S t)
      end
  end.

(** The same for the catch-up job (lines 131-136). *)
Definition end_of_endorseCheck (env : Env) (cfg : Config)
           (x : Result unit * World * nat) : Result unit * World * nat :=
  match x with
  | (Returned _, w, t) => (Returned tt, releaseCheck w, t)
  | (Threw e, w, t) =>
      let w1 := call_world (Sleep (RETRY_INTERVAL_MS cfg))
                           (log_world Err (EndorseCheckTaskError e) w) in
      match env t (Sleep (RETRY_INTERVAL_MS cfg)) with
      | Returned _ => (Returned tt, releaseCheck w1, S t)
      | Threw e' => (Threw e', releaseCheck w1, S t)
      end
  end.

(** The world in which the body of a regular cycle starts (lines 88-89). *)
Definition endorse_started (w : World) : World :=
  log_world Info EndorseTaskRunning
            (mkWorld (set_endorseRunning true (globals w)) (trace w)).

(** The world in which the body of a catch-up cycle starts (lines 113-115). *)
Definition endorseCheck_started (w : World) : World :=
  log_world Info EndorseCheckTaskRunning
            (mkWorld (set_endorseCheckRunning true (globals w)) (trace w)).

(** The world after the startup status has been polled and stored. *)
Definition polled (s : bool) (w : World) : World :=
  mkWorld (set_startupStatus s (globals w))
          (trace w ++ [EvCall GetStartupStatus]).

(** The events a catch-up scan of the heights [lo..hi] towards [tip], on
    behalf of [a], can produce: hash lookups, ledger reads and ledger
    writes for heights of the scan, the writes in the name of [a], and the
    log lines that go with them.  No other call, no other line. *)
Definition scan_event (a : string) (tip lo hi : Z) (e : Event) : Prop :=
  match e with
  | EvCall (GetBlockHash i) => lo <= i <= hi
  | EvCall (GetEndorsementByBlockId h _) => lo <= h <= hi
  | EvCall (ExecuteAction v h _) => v = a /\ lo <= h <= hi
  | EvCall _ => False
  | EvLog Info (CheckEndorsement i t) => t = tip /\ lo <= i <= hi
  | EvLog Info (SubmitSuccess v h _ _) => v = a /\ lo <= h <= hi
  | EvLog Info (BlockParsed h _) => lo <= h <= hi
  | EvLog Info (WaitEnabled h _) => lo <= h <= hi
  | EvLog Err (SubmitFailed v h _ _) => v = a /\ lo <= h <= hi
  | EvLog _ _ => False
  end.

(** The heights of the ledger writes, in order. *)
Definition write_heights (tr : list Event) : list Z :=
  map (fun x => snd (fst x)) (writes tr).

(** Every ledger read finds a record that gives [a] nothing to do: [a] is
    not requested, or is a provider already. *)
Definition nothing_pending (env : Env) (a : string) : Prop :=
  forall t h hash,
  exists r,
    env t (GetEndorsementByBlockId h hash) = Returned (Some r)
    /\ (~ In a (map account (requested_validators r))
        \/ In a (map account (provider_validators r))).

(** The hash lookups return and no ledger read finds a record. *)
Definition no_records (env : Env) : Prop :=
  (forall t h, exists blockhash, env t (GetBlockHash h) = Returned blockhash)
  /\ (forall t h hash, env t (GetEndorsementByBlockId h hash) = Returned None).

(** The task-error lines of the two handlers (lines 94 and 132). *)
Definition task_errors (tr : list Event) : nat :=
  List.length (filter (fun e => match e with
                                | EvLog Err (EndorseTaskError _) => true
                                | EvLog Err (EndorseCheckTaskError _) => true
                                | _ => false
                                end) tr).

(** Whether the Reconciler submits, given what the ledger read found. *)
Definition needs_endorsement (rec : option Endorsement) (a : string) : bool :=
  match rec with
  | None => true
  | Some r => pending r a
  end.

(** The back-off sleep always resolves. *)
Definition sleep_resolves (env : Env) : Prop :=
  forall t ms, env t (Sleep ms) = Returned tt.

(* ================================================================== *)
(** ** Startup: [main] and the entry point (lines 141-190) *)

Module Startup.

Local Open Scope list_scope.

(** What [getAccountInfo] resolves to; [main] reads [accountName] and hands
    the whole object to [ExsatApi]. *)
Record AccountInfo := mkAccountInfo { accountName : string }.

(** The collaborators of the startup, each given by what it answers:
    [getInputPassword] by the number of the prompt, [getAccountInfo] by the
    number of the call and its arguments.  [initialize] stands for
    [new ExsatApi(accountInfo, EXSAT_RPC_URLS)] followed by
    [await exsatApi.initialize()].  [trim] is [String.prototype.trim]. *)
Record Collaborators := mkCollaborators {
  envCheck : string -> Result unit;
  getConfigPassword : option string;
  getInputPassword : nat -> Result string;
  getAccountInfo : nat -> string -> string -> Result AccountInfo;
  initialize : AccountInfo -> Result unit;
  checkClient : Result unit;
  trim : string -> string;
  cron_schedule : string -> Result unit
}.

Inductive Job := EndorseJob | EndorseCheckJob.

(** The handler each cron job runs. *)
Definition handler_of (j : Job) : Config -> M unit :=
  match j with
  | EndorseJob => endorseTick
  | EndorseCheckJob => endorseCheckTick
  end.

Inductive Step :=
| EnvCheck (file : string)
| Prompt
| GetAccountInfo (file password : string)
| Warn (e : Error)                       (* logger.warn(e) *)
| Exit (code : Z)                        (* process.exit(code) *)
| Initialize (info : AccountInfo)
| CheckClient
| Schedule (expression : string) (j : Job)   (* cron.schedule *)
| Listen (port : Z)                      (* app.listen(PORT) *)
| LogError (e : Error).                  (* logger.error(e) *)

Inductive Outcome (A : Type) : Type :=
| Ok (a : A)
| Failed (e : Error)          (* the function threw *)
| Exited (code : Z)           (* the process was ended *)
| Prompting.                  (* the password loop is still asking *)
Arguments Ok {A} a.
Arguments Failed {A} e.
Arguments Exited {A} code.
Arguments Prompting {A}.

(** Truthiness of [getConfigPassword()]: a non-empty string. *)
Definition configured (p : option string) : option string :=
  match p with
  | Some s => if truthy_string s then Some s else None
  | None => None
  end.

(** Lines 150-160: [while (!accountInfo) { try { ... } catch (e) {
    logger.warn(e) } }].  [fuel] bounds the number of rounds looked at;
    [n] numbers the prompts and [k] the calls of [getAccountInfo]. *)
Fixpoint password_loop (c : Collaborators) (file : string) (fuel n k : nat)
         (done : list Step) : Outcome AccountInfo * list Step :=
  match fuel with
  | O => (Prompting, done)
  | S fuel' =>
      match getInputPassword c n with
      | Threw e => password_loop c file fuel' (S n) k (done ++ [Prompt; Warn e])
      | Returned password =>
          if String.eqb (trim c password) "q"
          then (Exited 0, done ++ [Prompt; Exit 0])
          else
            match getAccountInfo c k file password with
            | Returned accountInfo =>
                (Ok accountInfo, done ++ [Prompt; GetAccountInfo file password])
            | Threw e =>
                password_loop c file fuel' (S n) (S k)
                  (done ++ [Prompt; GetAccountInfo file password; Warn e])
            end
      end
  end.

(** Lines 141-167.  [file] is [VALIDATOR_KEYSTORE_FILE]. *)
Definition main (c : Collaborators) (file : string) (fuel : nat)
  : Outcome AccountInfo * list Step :=
  match envCheck c file with
  | Threw e => (Failed e, [EnvCheck file])
  | Returned _ =>
      let unlocked :=
        match configured (getConfigPassword c) with
        | Some password =>
            let password := trim c password in
            match getAccountInfo c 0 file password with
            | Returned accountInfo =>
                (Ok accountInfo, [EnvCheck file; GetAccountInfo file password])
            | Threw e => (Failed e, [EnvCheck file; GetAccountInfo file password])
            end
        | None => password_loop c file fuel 0 0 [EnvCheck file]
        end in
      match unlocked with
      | (Ok accountInfo, done) =>
          match initialize c accountInfo with
          | Threw e => (Failed e, done ++ [Initialize accountInfo])
          | Returned _ =>
              match checkClient c with
              | Threw e => (Failed e, done ++ [Initialize accountInfo; CheckClient])
              | Returned _ => (Ok accountInfo, done ++ [Initialize accountInfo; CheckClient])
              end
          end
      | other => other
      end
  end.

(** [PORT] (line 26). *)
Definition PORT : Z := 8081.

(** Lines 73-138 as far as the scheduling goes: the two [cron.schedule]
    calls, with the expressions [VALIDATOR_JOBS_ENDORSE] and
    [VALIDATOR_JOBS_ENDORSE_CHECK]. *)
Definition setupCronJobs (c : Collaborators) (endorse endorseCheck : string)
  : Outcome unit * list Step :=
  match cron_schedule c endorse with
  | Threw e => (Failed e, [Schedule endorse EndorseJob])
  | Returned _ =>
      match cron_schedule c endorseCheck with
      | Threw e =>
          (Failed e, [Schedule endorse EndorseJob; Schedule endorseCheck EndorseCheckJob])
      | Returned _ =>
          (Ok tt, [Schedule endorse EndorseJob; Schedule endorseCheck EndorseCheckJob])
      end
  end.

(** Lines 182-190: [try { await main(); await setupCronJobs(); await
    startServer() } catch (e) { logger.error(e) }]. *)
Definition entry (c : Collaborators) (file endorse endorseCheck : string) (fuel : nat)
  : list Step :=
  match main c file fuel with
  | (Ok _, done) =>
      match setupCronJobs c endorse endorseCheck with
      | (Ok _, scheduled) => done ++ scheduled ++ [Listen PORT]
      | (Failed e, scheduled) => done ++ scheduled ++ [LogError e]
      | (_, scheduled) => done ++ scheduled
      end
  | (Failed e, done) => done ++ [LogError e]
  | (_, done) => done
  end.

(** Observations on the steps of a startup. *)
Definition keystore_calls (l : list Step) : list (string * string) :=
  flat_map (fun s => match s with
                     | GetAccountInfo file password => [(file, password)]
                     | _ => []
                     end) l.

Definition prompts (l : list Step) : nat :=
  List.length (filter (fun s => match s with Prompt => true | _ => false end) l).

Definition warnings (l : list Step) : list Error :=
  flat_map (fun s => match s with Warn e => [e] | _ => [] end) l.

Definition scheduled_jobs (l : list Step) : list (string * Job) :=
  flat_map (fun s => match s with
                     | Schedule expression j => [(expression, j)]
                     | _ => []
                     end) l.

Definition listening (l : list Step) : bool :=
  existsb (fun s => match s with Listen _ => true | _ => false end) l.

(** The first [m] passwords typed are wrong ones: none is "q" once
    trimmed, and [getAccountInfo] rejects each. *)
Definition wrong_passwords (c : Collaborators) (file : string) (m : nat) : Prop :=
  forall j, (j < m)%nat ->
    exists password e,
      getInputPassword c j = Returned password
      /\ trim c password <> "q"
      /\ getAccountInfo c j file password = Threw e.

(** [trim] on strings of ASCII characters: the white space of JavaScript
    below 128 is tab, line feed, vertical tab, form feed, carriage return
    and space. *)
Definition is_space (ch : Ascii.ascii) : bool :=
  let n := Ascii.nat_of_ascii ch in
  ((9 <=? n) && (n <=? 13))%nat || (n =? 32)%nat.

Fixpoint trim_start (s : string) : string :=
  match s with
  | String ch s' => if is_space ch then trim_start s' else s
  | EmptyString => EmptyString
  end.

Fixpoint trim_end (s : string) : string :=
  match s with
  | String ch s' =>
      match trim_end s' with
      | EmptyString => if is_space ch then EmptyString else String ch EmptyString
      | rest => String ch rest
      end
  | EmptyString => EmptyString
  end.

Definition trim_ascii (s : string) : string := trim_end (trim_start s).

(** An operator who types [typed], one entry per prompt (and "q" when the
    list is used up), in front of a keystore that [secret] unlocks;
    everything else answers. *)
Definition operator (configPassword : option string) (typed : list string)
           (secret : string) : Collaborators :=
  mkCollaborators
    (fun _ => Returned tt)
    configPassword
    (fun n => Returned (nth n typed "q"))
    (fun _ _ password =>
       if String.eqb password secret then Returned (mkAccountInfo "me")
       else Threw (mkError (Some "invalid password")))
    (fun _ => Returned tt)
    (Returned tt)
    trim_ascii
    (fun _ => Returned tt).

End Startup.

(* ================================================================== *)
(** ** [utils/config.ts], as far as the validator uses it *)

Module Settings.

(** [process.env]: a variable is a string or is not set. *)
Definition ProcessEnv : Type := string -> option string.

(** Truthiness of a number: [0] and [NaN] are falsy. *)
Definition truthy_number (n : JsNum) : bool :=
  match n with
  | Num z => negb (z =? 0)
  | NaN => false
  end.

(** [n || d] on numbers. *)
Definition number_or (n : JsNum) (d : Z) : JsNum :=
  if truthy_number n then n else Num d.

(** [process.env.X || d] on strings. *)
Definition string_or (v : option string) (d : string) : string :=
  match v with
  | Some s => if truthy_string s then s else d
  | None => d
  end.

(** The constants take [parseInt] as given: a function from what a
    variable holds (a string, or [undefined]) to a number. *)

(** Line 6. *)
Definition MAX_RETRIES (parseInt : option string -> JsNum) (env : ProcessEnv) : JsNum :=
  number_or (parseInt (env "MAX_RETRIES")) 3.

(** Line 7. *)
Definition RETRY_INTERVAL_MS (parseInt : option string -> JsNum) (env : ProcessEnv)
  : JsNum :=
  match env "RETRY_INTERVAL_MS" with
  | Some s => if truthy_string s then parseInt (Some s) else Num 2000
  | None => Num 2000
  end.

(** Line 17. *)
Definition CHUNK_SIZE (parseInt : option string -> JsNum) (env : ProcessEnv) : JsNum :=
  number_or (parseInt (env "CHUNK_SIZE")) 262144.

(** Lines 26-29. *)
Definition VALIDATOR_JOBS_ENDORSE (env : ProcessEnv) : string :=
  string_or (env "VALIDATOR_JOBS_ENDORSE") "*/10 * * * * *".
Definition VALIDATOR_JOBS_ENDORSE_CHECK (env : ProcessEnv) : string :=
  string_or (env "VALIDATOR_JOBS_ENDORSE_CHECK") "*/5 * * * * *".
Definition VALIDATOR_KEYSTORE_FILE (env : ProcessEnv) : string :=
  string_or (env "VALIDATOR_KEYSTORE_FILE") "".
Definition VALIDATOR_KEYSTORE_PASSWORD (env : ProcessEnv) : string :=
  string_or (env "VALIDATOR_KEYSTORE_PASSWORD") "".

(** The process started with the settings of an environment. *)
Definition start (c : Startup.Collaborators) (env : ProcessEnv) (fuel : nat)
  : list Startup.Step :=
  Startup.entry c (VALIDATOR_KEYSTORE_FILE env)
                (VALIDATOR_JOBS_ENDORSE env) (VALIDATOR_JOBS_ENDORSE_CHECK env) fuel.

End Settings.
(* ================================================================== *)
(** ** Equations of the semantics *)

Lemma run_bindC {A B} (env : Env) (c : Coro A) (f : A -> M B) (t : nat) :
  run env t (bindC c f) =
  match run env t c with
  | (Returned a, w, t') => run env t' (f a w)
  | (Threw e, w, t') => (Threw e, w, t')
  end.
Proof.
  revert t. induction c as [r w | c k IH w]; intro t; simpl.
  - destruct r; reflexivity.
  - apply IH.
Qed.

Lemma run_catchC {A} (env : Env) (c : Coro A) (h : Error -> M A) (t : nat) :
  run env t (catchC c h) =
  match run env t c with
  | (Returned a, w, t') => (Returned a, w, t')
  | (Threw e, w, t') => run env t' (h e w)
  end.
Proof.
  revert t. induction c as [r w | c k IH w]; intro t; simpl.
  - destruct r; reflexivity.
  - apply IH.
Qed.

Lemma run_finallyC {A} (env : Env) (c : Coro A) (fin : M unit) (t : nat) :
  run env t (finallyC c fin) =
  match run env t c with
  | (r, w, t') =>
      match run env t' (fin w) with
      | (Returned _, w', t'') => (r, w', t'')
      | (Threw e, w', t'') => (Threw e, w', t'')
      end
  end.
Proof.
  revert t. induction c as [r w | c k IH w]; intro t; simpl.
  - rewrite run_bindC. destruct (run env t (fin w)) as [[[u|e] w'] t']; reflexivity.
  - apply IH.
Qed.

(** The same, for computations. *)
Lemma exec_bind {A B} env t (m : M A) (f : A -> M B) w :
  exec env t (bind m f) w =
  match exec env t m w with
  | (Returned a, w', t') => exec env t' (f a) w'
  | (Threw e, w', t') => (Threw e, w', t')
  end.
Proof. apply run_bindC. Qed.

Lemma exec_try_catch {A} env t (m : M A) h w :
  exec env t (try_catch m h) w =
  match exec env t m w with
  | (Returned a, w', t') => (Returned a, w', t')
  | (Threw e, w', t') => exec env t' (h e) w'
  end.
Proof. apply run_catchC. Qed.

Lemma exec_try_finally {A} env t (m : M A) fin w :
  exec env t (try_finally m fin) w =
  match exec env t m w with
  | (r, w', t') =>
      match exec env t' fin w' with
      | (Returned _, w'', t'') => (r, w'', t'')
      | (Threw e, w'', t'') => (Threw e, w'', t'')
      end
  end.
Proof. apply run_finallyC. Qed.

Lemma exec_ret {A} env t (a : A) w : exec env t (ret a) w = (Returned a, w, t).
Proof. reflexivity. Qed.

Lemma exec_get env t w : exec env t get w = (Returned (globals w), w, t).
Proof. reflexivity. Qed.

Lemma exec_modify env t f w :
  exec env t (modify f) w = (Returned tt, mkWorld (f (globals w)) (trace w), t).
Proof. reflexivity. Qed.

Lemma exec_emit env t e w :
  exec env t (emit e) w = (Returned tt, mkWorld (globals w) (trace w ++ [e]), t).
Proof. reflexivity. Qed.

Lemma exec_await env t c w :
  exec env t (await c) w =
  (env t c, mkWorld (globals w) (trace w ++ [EvCall c]), S t).
Proof. reflexivity. Qed.

Ltac exec_step :=
  repeat (first
    [ rewrite exec_bind | rewrite exec_try_catch | rewrite exec_try_finally
    | rewrite exec_await | rewrite exec_ret | rewrite exec_get
    | rewrite exec_modify | rewrite exec_emit ];
    cbn beta iota).

(* ================================================================== *)
(** ** The Submitter and the Reconciler, run alone *)


Lemma exec_submitEndorsement env t validator height hash w :
  let r := env t (ExecuteAction validator height hash) in
  exec env t (submitEndorsement validator height hash) w =
  (Returned tt,
   mkWorld (if write_succeeds r
            then set_lastEndorseHeight height (globals w)
            else globals w)
           (trace w ++ [EvCall (ExecuteAction validator height hash)]
                   ++ submit_log validator height hash r),
   S t).
Proof.
  intro r. unfold submitEndorsement. exec_step.
  fold r. destruct r as [[a|]|e]; simpl.
  - destruct a as [[tx|]]; simpl.
    + destruct (truthy_string tx); exec_step; unfold logger_info; exec_step; simpl;
        rewrite <- ?app_assoc; reflexivity.
    + exec_step. reflexivity.
  - exec_step. reflexivity.
  - destruct (includes _ _); [|destruct (includes _ _)];
      unfold logger_info, logger_error; exec_step; simpl;
      rewrite <- ?app_assoc; reflexivity.
Qed.




Lemma exec_checkAndSubmitEndorsement env t a h hash w :
  exec env t (checkAndSubmitEndorsement a h hash) w =
  let w1 := call_world (GetEndorsementByBlockId h hash) w in
  match env t (GetEndorsementByBlockId h hash) with
  | Threw e => (Threw e, w1, S t)
  | Returned None =>
      (Returned tt,
       submit_world a h hash (env (S t) (ExecuteAction a h hash)) w1,
       S (S t))
  | Returned (Some r) =>
      if pending r a then
        let w2 := submit_world a h hash (env (S t) (ExecuteAction a h hash)) w1 in
        (Returned tt,
         mkWorld (set_lastSubmittedHeight h (globals w2)) (trace w2),
         S (S t))
      else (Returned tt, w1, S t)
  end.
Proof.
  unfold checkAndSubmitEndorsement. exec_step.
  destruct (env t (GetEndorsementByBlockId h hash)) as [[r|]|e]; cbn beta iota zeta.
  - unfold pending. destruct (_ && _).
    + exec_step. rewrite exec_submitEndorsement. cbn beta iota zeta.
      exec_step. reflexivity.
    + reflexivity.
  - rewrite exec_submitEndorsement. reflexivity.
  - reflexivity.
Qed.

(** Counting on traces. *)
Lemma submissions_app tr1 tr2 :
  submissions (tr1 ++ tr2) = (submissions tr1 + submissions tr2)%nat.
Proof. unfold submissions. rewrite filter_app, length_app. reflexivity. Qed.

Lemma reconciled_app tr1 tr2 :
  reconciled (tr1 ++ tr2) = (reconciled tr1 ++ reconciled tr2)%list.
Proof. unfold reconciled. apply flat_map_app. Qed.

Lemma submissions_submit_log v h hash r : submissions (submit_log v h hash r) = 0%nat.
Proof.
  destruct r as [[[[tx|]]|]|e]; simpl; try reflexivity.
  - destruct (truthy_string tx); reflexivity.
  - destruct (includes _ _); [|destruct (includes _ _)]; reflexivity.
Qed.

Lemma reconciled_submit_log v h hash r : reconciled (submit_log v h hash r) = [].
Proof.
  destruct r as [[[[tx|]]|]|e]; simpl; try reflexivity.
  - destruct (truthy_string tx); reflexivity.
  - destruct (includes _ _); [|destruct (includes _ _)]; reflexivity.
Qed.

Lemma submissions_submit_world v h hash r w :
  submissions (trace (submit_world v h hash r w)) = S (submissions (trace w)).
Proof.
  unfold submit_world; cbn [trace].
  rewrite !submissions_app, submissions_submit_log.
  unfold submissions at 2. simpl. lia.
Qed.

Lemma reconciled_submit_world v h hash r w :
  reconciled (trace (submit_world v h hash r w)) = reconciled (trace w).
Proof.
  unfold submit_world; cbn [trace].
  rewrite !reconciled_app, reconciled_submit_log.
  simpl. rewrite app_nil_r. reflexivity.
Qed.

Lemma lastSubmittedHeight_submit_world v h hash r w :
  lastSubmittedHeight (globals (submit_world v h hash r w)) =
  lastSubmittedHeight (globals w).
Proof. unfold submit_world; simpl. destruct (write_succeeds r); reflexivity. Qed.

Lemma submissions_read h hash w :
  submissions (trace (call_world (GetEndorsementByBlockId h hash) w)) =
  submissions (trace w).
Proof.
  unfold call_world; cbn [trace]. rewrite submissions_app.
  unfold submissions at 2. simpl. lia.
Qed.

(** Membership, as the Qualification Evaluator decides it. *)
Lemma isEndorserQualified_In endorsers a :
  isEndorserQualified endorsers a = true <-> In a (map account endorsers).
Proof.
  unfold isEndorserQualified. rewrite existsb_exists, in_map_iff.
  split; intros [e [H1 H2]]; exists e.
  - apply String.eqb_eq in H2. auto.
  - split; [tauto|]. apply String.eqb_eq. tauto.
Qed.

Lemma isEndorserQualified_not_In endorsers a :
  isEndorserQualified endorsers a = false <-> ~ In a (map account endorsers).
Proof.
  rewrite <- isEndorserQualified_In.
  destruct (isEndorserQualified endorsers a); split; intro; congruence.
Qed.

(* ================================================================== *)
(** ** Qualification Evaluator *)

(** C9: [isEndorserQualified list accountName] is true if and only if some
    entry of the list has its [account] equal to [accountName].  The
    function is embedded outside the monad [M]: it reads no global, awaits
    nothing and logs nothing, its result depends on its two arguments
    only. *)
Theorem C9_isEndorserQualified_iff :
  forall (endorsers : list Endorser) (accountName : string),
    isEndorserQualified endorsers accountName = true
    <-> exists endorser, In endorser endorsers /\ account endorser = accountName.
Proof.
  intros endorsers a. induction endorsers as [|e l IH]; simpl.
  - split; [discriminate | intros [x [[] _]]].
  - rewrite orb_true_iff, IH, String.eqb_eq. split.
    + intros [H | [x [Hx Ha]]]; [exists e | exists x]; auto.
    + intros [x [[-> | Hx] Ha]]; [left | right; exists x]; auto.
Qed.

(* ================================================================== *)
(** ** Reconciler *)

(** C1: one call of [checkAndSubmitEndorsement accountName height hash].
    If the ledger read returns no record, the Submitter is invoked exactly
    once.  If it returns a record, the Submitter is invoked exactly once
    when [accountName] is among [requested_validators] and not among
    [provider_validators], and is not invoked when [accountName] is among
    [provider_validators]. *)
Theorem C1_submitter_invocations :
  forall env t accountName height hash w,
    let x := exec env t (checkAndSubmitEndorsement accountName height hash) w in
    (env t (GetEndorsementByBlockId height hash) = Returned None ->
     submissions (trace (final x)) = S (submissions (trace w)))
    /\ (forall r,
         env t (GetEndorsementByBlockId height hash) = Returned (Some r) ->
         In accountName (map account (requested_validators r)) ->
         ~ In accountName (map account (provider_validators r)) ->
         submissions (trace (final x)) = S (submissions (trace w)))
    /\ (forall r,
         env t (GetEndorsementByBlockId height hash) = Returned (Some r) ->
         In accountName (map account (provider_validators r)) ->
         submissions (trace (final x)) = submissions (trace w)).
Proof.
  intros env t a h hash w x. subst x.
  rewrite exec_checkAndSubmitEndorsement. cbn zeta.
  repeat split.
  - intros ->. unfold final; cbn [fst snd].
    rewrite submissions_submit_world, submissions_read. reflexivity.
  - intros r -> Hreq Hprov.
    apply isEndorserQualified_In in Hreq.
    apply isEndorserQualified_not_In in Hprov.
    unfold pending. rewrite Hreq, Hprov. unfold final; cbn [fst snd andb negb trace].
    rewrite submissions_submit_world, submissions_read. reflexivity.
  - intros r -> Hprov.
    apply isEndorserQualified_In in Hprov.
    unfold pending. rewrite Hprov, andb_false_r. unfold final; cbn [fst snd].
    apply submissions_read.
Qed.

Lemma C1_submitter_invocations_witness :
  submissions (trace (final (exec (network record_absent accepted) 0
     (checkAndSubmitEndorsement "me" 100 "abcd") initial_world))) = 1%nat
  /\ submissions (trace (final (exec (network record_pending accepted) 0
     (checkAndSubmitEndorsement "me" 100 "abcd") initial_world))) = 1%nat
  /\ submissions (trace (final (exec (network record_provided accepted) 0
     (checkAndSubmitEndorsement "me" 100 "abcd") initial_world))) = 0%nat.
Proof.
  split; [|split].
  - apply (proj1 (C1_submitter_invocations
                    (network record_absent accepted) 0 "me" 100 "abcd" initial_world)).
    reflexivity.
  - apply (proj1 (proj2 (C1_submitter_invocations
                    (network record_pending accepted) 0 "me" 100 "abcd" initial_world))
             (mkEndorsement [me] [])).
    + reflexivity.
    + simpl. auto.
    + simpl. tauto.
  - apply (proj2 (proj2 (C1_submitter_invocations
                    (network record_provided accepted) 0 "me" 100 "abcd" initial_world))
             (mkEndorsement [me] [me])).
    + reflexivity.
    + simpl. auto.
Defined.

Lemma final_checkAndSubmitEndorsement_absent (env : Env) t a h hash w :
  env t (GetEndorsementByBlockId h hash) = Returned None ->
  lastSubmittedHeight (globals (final (exec env t (checkAndSubmitEndorsement a h hash) w)))
  = lastSubmittedHeight (globals w).
Proof.
  intro H. rewrite exec_checkAndSubmitEndorsement. cbn zeta. rewrite H.
  unfold final; cbn [fst snd]. rewrite lastSubmittedHeight_submit_world.
  reflexivity.
Qed.

(** C4, as stated, fails: the record exists, "me" is requested and not yet a
    provider, the ledger write is rejected with an unexpected error, and
    [lastSubmittedHeight] goes from 0 to 100 all the same. *)
Lemma C4_counterexample :
  ~ lastSubmitted_tracks_success
      (network record_pending (rejected "connection refused"))
      0 "me" 100 "abcd" initial_world.
Proof. unfold lastSubmitted_tracks_success. vm_compute. discriminate. Qed.

(** C4, amended: in one call of [checkAndSubmitEndorsement], when a record
    exists and [accountName] is requested and not yet a provider, the
    Submitter is invoked and [lastSubmittedHeight] is [height] afterwards,
    whatever the ledger write settles to; when no submission is made,
    [lastSubmittedHeight] is unchanged. *)
Theorem C4_lastSubmittedHeight_after_call :
  forall env t accountName height hash w,
    let x := exec env t (checkAndSubmitEndorsement accountName height hash) w in
    (forall r,
        env t (GetEndorsementByBlockId height hash) = Returned (Some r) ->
        In accountName (map account (requested_validators r)) ->
        ~ In accountName (map account (provider_validators r)) ->
        submissions (trace (final x)) = S (submissions (trace w))
        /\ ping (final x) = height)
    /\ (submissions (trace (final x)) = submissions (trace w) ->
        ping (final x) = ping w).
Proof.
  intros env t a h hash w x. subst x.
  rewrite exec_checkAndSubmitEndorsement. cbn zeta. split.
  - intros r -> Hreq Hprov.
    apply isEndorserQualified_In in Hreq.
    apply isEndorserQualified_not_In in Hprov.
    unfold pending. rewrite Hreq, Hprov. unfold final; cbn [fst snd andb negb trace globals].
    rewrite submissions_submit_world, submissions_read. split; reflexivity.
  - destruct (env t (GetEndorsementByBlockId h hash)) as [[r|]|e].
    + destruct (pending r a); unfold final; cbn [fst snd trace globals].
      * rewrite submissions_submit_world, submissions_read. lia.
      * reflexivity.
    + unfold final; cbn [fst snd].
      rewrite submissions_submit_world, submissions_read. lia.
    + reflexivity.
Qed.

Lemma C4_lastSubmittedHeight_after_call_witness :
  ping (final
    (exec (network record_pending (rejected "connection refused")) 0
          (checkAndSubmitEndorsement "me" 100 "abcd") initial_world)) = 100
  /\ ping (final
    (exec (network record_provided accepted) 0
          (checkAndSubmitEndorsement "me" 100 "abcd") initial_world))
     = ping initial_world.
Proof.
  split.
  - apply (proj1 (C4_lastSubmittedHeight_after_call
                    (network record_pending (rejected "connection refused"))
                    0 "me" 100 "abcd" initial_world) (mkEndorsement [me] [])).
    + reflexivity.
    + simpl. auto.
    + simpl. tauto.
  - apply (proj2 (C4_lastSubmittedHeight_after_call
                    (network record_provided accepted)
                    0 "me" 100 "abcd" initial_world)).
    reflexivity.
Defined.

(* ================================================================== *)
(** ** Submitter *)

Lemma includes_empty_marker marker :
  marker <> "" -> includes "" marker = false.
Proof. destruct marker; simpl; [congruence | reflexivity]. Qed.

Lemma message_or_empty_includes e msg marker :
  message e = Some msg -> marker <> "" -> includes msg marker = true ->
  includes (message_or_empty e) marker = true.
Proof.
  intros Hm Hne Hin. unfold message_or_empty. rewrite Hm.
  destruct msg; simpl truthy_string; cbn iota; [|exact Hin].
  rewrite includes_empty_marker in Hin by assumption. discriminate.
Qed.

(** C7, as stated, fails: a failure whose message contains "current
    endorsement status is disabled" without the prefix the source looks
    for is logged at error level. *)
Lemma C7_counterexample :
  ~ benign_on_marker "current endorsement status is disabled"
      (network record_absent (rejected "current endorsement status is disabled"))
      0 "me" 100 "abcd" initial_world.
Proof.
  intro H.
  destruct (H (mkError (Some "current endorsement status is disabled"))
              "current endorsement status is disabled"
              eq_refl eq_refl eq_refl) as [[m Hm] _].
  vm_compute in Hm. discriminate Hm.
Qed.

(** C7, amended: when the ledger write fails with a message containing
    "blkendt.xsat::endorse: the current endorsement status is disabled" (or
    "blkendt.xsat::endorse: the block has been parsed and does not need to
    be endorsed"), [submitEndorsement] logs one line at informational
    level, returns normally, and leaves [lastEndorseHeight] unchanged. *)
Theorem C7_benign_rejection :
  forall marker env t validator height hash w,
    marker = disabled_marker \/ marker = parsed_marker ->
    benign_on_marker marker env t validator height hash w.
Proof.
  intros marker env t v h hash w Hmk e msg He Hmsg Hin x. subst x.
  rewrite exec_submitEndorsement. cbn zeta. rewrite He.
  unfold final, outcome; cbn [fst snd write_succeeds trace globals submit_log].
  assert (Hne : marker <> "") by (destruct Hmk; subst; discriminate).
  pose proof (message_or_empty_includes e msg marker Hmsg Hne Hin) as Hinc.
  fold parsed_marker disabled_marker.
  destruct Hmk; subst marker.
  - destruct (includes (message_or_empty e) parsed_marker).
    + split; [eexists; reflexivity | split; reflexivity].
    + rewrite Hinc. split; [eexists; reflexivity | split; reflexivity].
  - rewrite Hinc. split; [eexists; reflexivity | split; reflexivity].
Qed.

Lemma C7_benign_rejection_witness :
  let env := network record_absent
       (rejected "assertion failure with message: blkendt.xsat::endorse: the current endorsement status is disabled") in
  let x := exec env 0 (submitEndorsement "me" 100 "abcd") initial_world in
  (exists m, trace (final x) =
             (trace initial_world ++ [EvCall (ExecuteAction "me" 100 "abcd");
                                      EvLog Info m])%list)
  /\ outcome x = Returned tt
  /\ lastEndorseHeight (globals (final x)) = lastEndorseHeight (globals initial_world).
Proof.
  apply (C7_benign_rejection disabled_marker
           (network record_absent
              (rejected "assertion failure with message: blkendt.xsat::endorse: the current endorsement status is disabled"))
           0 "me" 100 "abcd" initial_world (or_introl eq_refl)
           (mkError (Some "assertion failure with message: blkendt.xsat::endorse: the current endorsement status is disabled"))
           "assertion failure with message: blkendt.xsat::endorse: the current endorsement status is disabled"
           eq_refl eq_refl eq_refl).
Defined.





(* ================================================================== *)
(** ** Catch-up scanner: where the scan starts *)

Lemma startEndorseHeight_eq chainstate L blockcount :
  startEndorseHeight chainstate L blockcount = irreversible_height chainstate + 1.
Proof.
  unfold startEndorseHeight, object_to_number. cbn [sub lt].
  rewrite andb_false_r. reflexivity.
Qed.

(** C2: the specification starts the scan at [L] when [L > I+1] and
    [L < tip - 6].  The source compares [L] with [blockcount - 6] where
    [blockcount] is the answer object, so the comparison is with [NaN] and
    the scan starts at [I+1] in every case: with [I = 500], [L = 503] and
    tip 510 the wording gives 503, the source 501, and the catch-up cycle
    reconciles 501 to 510. *)
Theorem C2_scan_start_is_irreversible_plus_one :
  (forall chainstate L blockcount,
      startEndorseHeight chainstate L blockcount = irreversible_height chainstate + 1)
  /\ spec_startHeight 500 503 510 = 503
  /\ startEndorseHeight (mkChainstate 500) 503 (mkRpc 510) = 501
  /\ reconciled (trace (final (exec (network record_provided accepted) 0
                                  (endorseCheckTick cfg_me) world_after_503)))
     = [501; 502; 503; 504; 505; 506; 507; 508; 509; 510].
Proof.
  split; [exact startEndorseHeight_eq | repeat split; vm_compute; reflexivity].
Qed.

(* ================================================================== *)
(** ** Catch-up scanner: the loop *)

(** What one call of the Reconciler leaves behind, in every case. *)
Lemma reconciled_checkAndSubmitEndorsement env t a h hash w :
  reconciled (trace (final (exec env t (checkAndSubmitEndorsement a h hash) w)))
  = (reconciled (trace w) ++ [h])%list.
Proof.
  rewrite exec_checkAndSubmitEndorsement. cbn zeta.
  assert (Hc : reconciled (trace (call_world (GetEndorsementByBlockId h hash) w))
               = (reconciled (trace w) ++ [h])%list).
  { unfold call_world; cbn [trace]. rewrite reconciled_app. reflexivity. }
  destruct (env t (GetEndorsementByBlockId h hash)) as [[r|]|e];
    [destruct (pending r a)| |]; unfold final; cbn [fst snd trace];
    rewrite ?reconciled_submit_world; exact Hc.
Qed.

Lemma lastSubmittedHeight_checkAndSubmitEndorsement env t a h hash w :
  let w' := final (exec env t (checkAndSubmitEndorsement a h hash) w) in
  lastSubmittedHeight (globals w') = lastSubmittedHeight (globals w)
  \/ lastSubmittedHeight (globals w') = h.
Proof.
  cbn zeta. rewrite exec_checkAndSubmitEndorsement. cbn zeta.
  destruct (env t (GetEndorsementByBlockId h hash)) as [[r|]|e];
    [destruct (pending r a)| |]; unfold final; cbn [fst snd globals];
    rewrite ?lastSubmittedHeight_submit_world; auto.
Qed.

(** Calls other than the ledger write and the ledger read, and log lines,
    count neither as submissions nor as reconciled heights. *)
Lemma submissions_call_world c w :
  is_submission (EvCall c) = false ->
  submissions (trace (call_world c w)) = submissions (trace w).
Proof.
  intro H. unfold call_world; cbn [trace]. rewrite submissions_app.
  unfold submissions at 2. cbn [filter]. rewrite H. simpl. lia.
Qed.

Lemma submissions_log_world l m w :
  submissions (trace (log_world l m w)) = submissions (trace w).
Proof.
  unfold log_world; cbn [trace]. rewrite submissions_app.
  unfold submissions at 2. simpl. lia.
Qed.

Lemma reconciled_call_world c w :
  reconciled [EvCall c] = [] ->
  reconciled (trace (call_world c w)) = reconciled (trace w).
Proof.
  intro H. unfold call_world; cbn [trace].
  rewrite reconciled_app, H. apply app_nil_r.
Qed.

Lemma reconciled_log_world l m w :
  reconciled (trace (log_world l m w)) = reconciled (trace w).
Proof.
  unfold log_world; cbn [trace]. rewrite reconciled_app. apply app_nil_r.
Qed.

(** One turn of the loop. *)
Lemma exec_scan_loop_S env t fuel a tip i w :
  exec env t (scan_loop (S fuel) a tip i) w =
  if i <=? tip then
    match env t (GetBlockHash i) with
    | Threw e => (Threw e, call_world (GetBlockHash i) w, S t)
    | Returned blockhash =>
        match exec env (S t) (checkAndSubmitEndorsement a i (result blockhash))
                   (log_world Info (CheckEndorsement i tip)
                              (call_world (GetBlockHash i) w)) with
        | (Returned _, w2, t2) => exec env t2 (scan_loop fuel a tip (i + 1)) w2
        | (Threw e, w2, t2) => (Threw e, w2, t2)
        end
    end
  else (Returned tt, w, t).
Proof.
  cbn [scan_loop]. destruct (i <=? tip); [|reflexivity].
  exec_step. destruct (env t (GetBlockHash i)) as [bh|e]; cbn beta iota.
  - unfold logger_info. exec_step. reflexivity.
  - reflexivity.
Qed.

Lemma exec_scan_loop_past env t fuel a tip i w :
  tip < i -> exec env t (scan_loop fuel a tip i) w = (Returned tt, w, t).
Proof.
  intro H. destruct fuel; [reflexivity|].
  rewrite exec_scan_loop_S.
  destruct (Z.leb_spec i tip); [lia | reflexivity].
Qed.

(** The first [n] turns, then the rest. *)
Lemma exec_scan_loop_split env a tip n m :
  forall t i w,
    exec env t (scan_loop (n + m) a tip i) w =
    match exec env t (scan_loop n a tip i) w with
    | (Returned _, w1, t1) => exec env t1 (scan_loop m a tip (i + Z.of_nat n)) w1
    | (Threw e, w1, t1) => (Threw e, w1, t1)
    end.
Proof.
  induction n as [|n IH]; intros t i w.
  - cbn [Nat.add scan_loop]. rewrite exec_ret. rewrite Z.add_0_r. reflexivity.
  - change (S n + m)%nat with (S (n + m)). rewrite !exec_scan_loop_S.
    destruct (Z.leb_spec i tip) as [Hle|Hgt].
    + destruct (env t (GetBlockHash i)) as [bh|e]; [|reflexivity].
      destruct (exec env (S t) (checkAndSubmitEndorsement a i (result bh)) _)
        as [[[u|e] w2] t2]; [|reflexivity].
      rewrite IH. replace (i + 1 + Z.of_nat n) with (i + Z.of_nat (S n)) by lia.
      reflexivity.
    + rewrite exec_scan_loop_past by lia. reflexivity.
Qed.

Lemma heights_from_app s n m :
  heights_from s (n + m) = (heights_from s n ++ heights_from (s + Z.of_nat n) m)%list.
Proof.
  revert s. induction n as [|n IH]; intro s.
  - cbn [Nat.add heights_from app]. rewrite Z.add_0_r. reflexivity.
  - cbn [Nat.add heights_from app]. rewrite IH.
    replace (s + 1 + Z.of_nat n) with (s + Z.of_nat (S n)) by lia. reflexivity.
Qed.

Lemma heights_from_In s n j :
  In j (heights_from s n) <-> s <= j < s + Z.of_nat n.
Proof.
  revert s. induction n as [|n IH]; intro s; cbn [heights_from In].
  - lia.
  - rewrite IH. lia.
Qed.

(** The heights a scan hands to the Reconciler are a prefix of
    [i, i+1, ..., tip]; the whole of it when the scan returns. *)
Lemma reconciled_scan_loop env a tip fuel :
  forall t i w,
    let x := exec env t (scan_loop fuel a tip i) w in
    exists n,
      (n <= fuel)%nat
      /\ (n <= Z.to_nat (tip - i + 1))%nat
      /\ reconciled (trace (final x)) = (reconciled (trace w) ++ heights_from i n)%list
      /\ (outcome x = Returned tt ->
          (Z.to_nat (tip - i + 1) <= fuel)%nat ->
          n = Z.to_nat (tip - i + 1)).
Proof.
  induction fuel as [|fuel IH]; intros t i w x; subst x.
  - exists 0%nat. cbn [scan_loop]. rewrite exec_ret.
    unfold final; cbn [fst snd heights_from]. rewrite app_nil_r.
    split; [lia | split; [lia | split; [reflexivity | lia]]].
  - rewrite exec_scan_loop_S. destruct (Z.leb_spec i tip) as [Hle|Hgt].
    + destruct (env t (GetBlockHash i)) as [bh|e].
      * pose proof (reconciled_checkAndSubmitEndorsement env (S t) a i (result bh)
                      (log_world Info (CheckEndorsement i tip)
                                 (call_world (GetBlockHash i) w))) as Hr.
        destruct (exec env (S t) (checkAndSubmitEndorsement a i (result bh)) _)
          as [[[u|e] w2] t2]; unfold final in Hr; cbn [fst snd] in Hr.
        -- destruct (IH t2 (i + 1) w2) as [n [Hf [Hn [Hrec Hall]]]].
           exists (S n). split; [lia|]. split; [lia|]. split.
           ++ rewrite Hrec, Hr. unfold log_world, call_world; cbn [trace].
              rewrite !reconciled_app. cbn [reconciled flat_map app heights_from].
              rewrite !app_nil_r, <- app_assoc. reflexivity.
           ++ intros Ho Hfu. rewrite Hall by (assumption || lia). lia.
        -- exists 1%nat. split; [lia|]. split; [lia|]. split.
           ++ unfold final; cbn [fst snd]. rewrite Hr.
              unfold log_world, call_world; cbn [trace].
              rewrite !reconciled_app. cbn [reconciled flat_map app heights_from].
              rewrite !app_nil_r. reflexivity.
           ++ intro Ho. discriminate Ho.
      * exists 0%nat. split; [lia|]. split; [lia|]. split.
        -- unfold final, call_world; cbn [fst snd trace heights_from].
           rewrite reconciled_app. reflexivity.
        -- intro Ho. discriminate Ho.
    + exists 0%nat. unfold final; cbn [fst snd heights_from]. rewrite app_nil_r.
      split; [lia | split; [lia | split; [reflexivity | lia]]].
Qed.

Lemma outcome_checkAndSubmitEndorsement (env : Env) t a h hash w rec :
  env t (GetEndorsementByBlockId h hash) = Returned rec ->
  outcome (exec env t (checkAndSubmitEndorsement a h hash) w) = Returned tt.
Proof.
  intro H. rewrite exec_checkAndSubmitEndorsement. cbn zeta. rewrite H.
  destruct rec as [r|]; [destruct (pending r a)|]; reflexivity.
Qed.

(** A scan whose lookups and reads return runs to its end, whatever the
    ledger writes settle to. *)
Lemma outcome_scan_loop env a tip fuel :
  reads_return env ->
  forall t i w, outcome (exec env t (scan_loop fuel a tip i) w) = Returned tt.
Proof.
  intros [Hhash Hread]. induction fuel as [|fuel IH]; intros t i w.
  - reflexivity.
  - rewrite exec_scan_loop_S. destruct (i <=? tip); [|reflexivity].
    destruct (Hhash t i) as [bh ->].
    destruct (Hread (S t) i (result bh)) as [rec Hrec].
    pose proof (outcome_checkAndSubmitEndorsement env (S t) a i (result bh)
                  (log_world Info (CheckEndorsement i tip)
                             (call_world (GetBlockHash i) w)) rec Hrec) as Ho.
    destruct (exec env (S t) (checkAndSubmitEndorsement a i (result bh)) _)
      as [[[u|e] w2] t2]; [apply IH | discriminate Ho].
Qed.



Lemma network_reads_return read write :
  (forall t h hash, exists r, read t h hash = Returned r) ->
  reads_return (network read write).
Proof.
  intro H. split.
  - intros t h. eexists. reflexivity.
  - intros t h hash. apply H.
Qed.


(** C5, as stated, fails: the ledger write for height 501 is rejected with
    an unexpected error, and the scan goes on to 502 and 503. *)
Lemma C5_counterexample :
  let x := exec (network record_pending (rejected "connection refused")) 0
                (scan "me" 501 503) initial_world in
  write_failed_at 501 (trace (final x))
  /\ ~ aborts_after 501 (trace (final x)).
Proof.
  cbn zeta. split.
  - exists "me", "h", (mkError (Some "connection refused")). vm_compute. tauto.
  - intro H. specialize (H 503). vm_compute in H.
    assert (Hc : (503 ?= 501) = Gt) by reflexivity.
    apply H; [tauto | exact Hc].
Qed.

(** C5, amended: in a catch-up scan from [start] to [tip], once the
    heights before [k] have been reconciled, an error of the block-hash
    lookup or of the ledger read at height [k] ends the scan with that
    error: the globals are as the earlier heights left them, their events
    stay, no further ledger write is made and no height after [k] is
    handed to the Reconciler.  A failure of the ledger write does not
    abort: a scan whose lookups and reads return reconciles every height
    up to [tip] whatever the writes settle to. *)
Theorem C5_lookup_and_read_errors_abort_scan :
  (forall env accountName start tip k t w w1 t1 e,
      start <= k <= tip ->
      exec env t (scan_loop (Z.to_nat (k - start)) accountName tip start) w
      = (Returned tt, w1, t1) ->
      (env t1 (GetBlockHash k) = Threw e
       \/ exists blockhash,
           env t1 (GetBlockHash k) = Returned blockhash
           /\ env (S t1) (GetEndorsementByBlockId k (result blockhash)) = Threw e) ->
      let x := exec env t (scan accountName start tip) w in
      outcome x = Threw e
      /\ globals (final x) = globals w1
      /\ (exists rest, trace (final x) = (trace w1 ++ rest)%list)
      /\ submissions (trace (final x)) = submissions (trace w1)
      /\ (forall j, In j (reconciled (trace (final x))) ->
                    In j (reconciled (trace w)) \/ start <= j <= k))
  /\ (forall env accountName start tip t w,
         reads_return env ->
         let x := exec env t (scan accountName start tip) w in
         outcome x = Returned tt
         /\ reconciled (trace (final x))
            = (reconciled (trace w)
               ++ heights_from start (Z.to_nat (tip - start + 1)))%list).
Proof.
  split.
  - intros env a start tip k t w w1 t1 e Hk Hpre Herr x. subst x.
    unfold scan, scan_fuel.
    replace (Z.to_nat (tip - start + 1))
      with (Z.to_nat (k - start) + S (Z.to_nat (tip - k)))%nat by lia.
    rewrite exec_scan_loop_split, Hpre.
    replace (start + Z.of_nat (Z.to_nat (k - start))) with k by lia.
    rewrite exec_scan_loop_S.
    destruct (Z.leb_spec k tip) as [_|Hgt]; [|lia].
    destruct (reconciled_scan_loop env a tip (Z.to_nat (k - start)) t start w)
      as [n [Hf [_ [Hrec _]]]].
    rewrite Hpre in Hrec. unfold final in Hrec; cbn [fst snd] in Hrec.
    assert (Hbefore : forall j, In j (reconciled (trace w1)) ->
                                In j (reconciled (trace w)) \/ start <= j <= k).
    { intros j Hj. rewrite Hrec in Hj. apply in_app_or in Hj.
      destruct Hj as [Hj|Hj]; [auto|]. apply heights_from_In in Hj. lia. }
    destruct Herr as [Hh | [bh [Hh Hr]]]; rewrite Hh.
    + unfold outcome, final; cbn [fst snd].
      split; [reflexivity|]. split; [reflexivity|]. split; [|split].
      * eexists; reflexivity.
      * apply submissions_call_world. reflexivity.
      * rewrite reconciled_call_world by reflexivity. exact Hbefore.
    + rewrite exec_checkAndSubmitEndorsement. cbn zeta. rewrite Hr.
      unfold outcome, final; cbn [fst snd].
      split; [reflexivity|]. split; [reflexivity|]. split; [|split].
      * unfold call_world, log_world; cbn [trace].
        rewrite <- !app_assoc. eexists; reflexivity.
      * rewrite submissions_read, submissions_log_world.
        apply submissions_call_world. reflexivity.
      * intros j Hj. unfold call_world at 1 in Hj; cbn [trace] in Hj.
        rewrite reconciled_app, reconciled_log_world in Hj.
        rewrite reconciled_call_world in Hj by reflexivity.
        apply in_app_or in Hj. destruct Hj as [Hj|[<-|[]]]; [auto | right; lia].
  - intros env a start tip t w Hr x. subst x. unfold scan, scan_fuel.
    pose proof (outcome_scan_loop env a tip (Z.to_nat (tip - start + 1)) Hr t start w)
      as Ho.
    destruct (reconciled_scan_loop env a tip (Z.to_nat (tip - start + 1)) t start w)
      as [n [_ [_ [Hrec Hall]]]].
    split; [exact Ho|]. rewrite Hrec, (Hall Ho) by lia. reflexivity.
Qed.

Lemma C5_lookup_and_read_errors_abort_scan_witness :
  outcome (exec (network_without_block 503 record_pending (rejected "connection refused"))
             0 (scan "me" 501 510) initial_world)
  = Threw (mkError (Some "ETIMEDOUT"))
  /\ outcome (exec (network record_pending (rejected "connection refused"))
                0 (scan "me" 501 510) initial_world)
     = Returned tt.
Proof.
  split.
  - pose (env := network_without_block 503 record_pending (rejected "connection refused")).
    pose (x1 := exec env 0 (scan_loop (Z.to_nat (503 - 501)) "me" 510 501) initial_world).
    apply (proj1 C5_lookup_and_read_errors_abort_scan
             env "me" 501 510 503 0%nat initial_world (final x1) (clock x1)
             (mkError (Some "ETIMEDOUT"))).
    + lia.
    + reflexivity.
    + left. reflexivity.
  - apply (proj2 C5_lookup_and_read_errors_abort_scan
             (network record_pending (rejected "connection refused"))
             "me" 501 510 0%nat initial_world).
    apply network_reads_return. intros t h hash. eexists. reflexivity.
Defined.

(* ================================================================== *)
(** ** The liveness probe *)


Lemma lastSubmittedHeight_scan_loop env a tip fuel :
  forall t i w,
    let w' := final (exec env t (scan_loop fuel a tip i) w) in
    lastSubmittedHeight (globals w') = lastSubmittedHeight (globals w)
    \/ i <= lastSubmittedHeight (globals w') <= tip.
Proof.
  induction fuel as [|fuel IH]; intros t i w w'; subst w'.
  - left. reflexivity.
  - rewrite exec_scan_loop_S. destruct (Z.leb_spec i tip) as [Hle|Hgt].
    + destruct (env t (GetBlockHash i)) as [bh|e]; [|left; reflexivity].
      pose proof (lastSubmittedHeight_checkAndSubmitEndorsement env (S t) a i (result bh)
                    (log_world Info (CheckEndorsement i tip)
                               (call_world (GetBlockHash i) w))) as H1.
      cbn zeta in H1.
      destruct (exec env (S t) (checkAndSubmitEndorsement a i (result bh)) _)
        as [[[u|e] w2] t2]; unfold final in H1; cbn [fst snd] in H1;
        unfold log_world, call_world in H1; cbn [globals] in H1.
      * specialize (IH t2 (i + 1) w2). cbn zeta in IH.
        destruct IH as [IH|IH]; [rewrite IH|]; lia.
      * unfold final; cbn [fst snd]. lia.
    + left. reflexivity.
Qed.

(** *** Histories *)








(** *** Quiet computations *)













(** *** Calm computations: quiet up to the end *)




(** *** Lists that rise once changed *)

Lemma Forall_eq_repeat (v : Z) (l : list Z) :
  Forall (fun x => x = v) l -> l = repeat v (List.length l).
Proof.
  induction 1 as [|x l Hx _ IH]; [reflexivity|].
  simpl. rewrite Hx at 1. f_equal. exact IH.
Qed.









(** *** Computations along which the value rises once changed *)








(** *** The Reconciler, then the rest of the scan *)






(** *** The two handlers *)





(** The property tells histories apart: one that falls after it has
    changed does not have it. *)
Lemma rises_once_changed_excludes_a_fall :
  ~ rises_once_changed 510 [510; 505; 501].
Proof.
  intros (n & rest & E & Hs).
  destruct n as [|[|n]]; simpl in E.
  - subst rest. inversion Hs as [|? ? _ H]; subst.
    inversion H as [|? ? H1 _]; subst. lia.
  - injection E as <-. inversion Hs as [|? ? _ H]; subst.
    inversion H as [|? ? H1 _]; subst. lia.
  - discriminate E.
Qed.

(** What the probe can see of the catch-up cycle that follows the regular
    cycle after a downtime: 510 until the cycle first assigns, then 501 to
    the end; the first assignment lowers the value, none after it does. *)
Lemma ping_history_after_downtime :
  ping_history (network ledger_after_downtime accepted) (clock after_regular_cycle)
               (endorseCheckTick cfg_me) (final after_regular_cycle)
  = (repeat 510 5 ++ repeat 501 19)%list.
Proof. vm_compute. reflexivity. Qed.



(* ================================================================== *)
(** ** Run guards *)

Lemma startup_gate_open k w :
  startupStatus (globals w) = true -> startup_gate k w = k w.
Proof.
  intro H. unfold startup_gate, bind, get. cbn [bindC]. rewrite H. reflexivity.
Qed.

(** A tick of the catch-up job that finds its guard held does nothing at
    all. *)
Lemma endorseCheckTick_guard_held cfg w :
  startupStatus (globals w) = true ->
  endorseCheckRunning (globals w) = true ->
  endorseCheckTick cfg w = Done (Returned tt) w.
Proof.
  intros Hs Hg. unfold endorseCheckTick. rewrite startup_gate_open by assumption.
  unfold bind, get. cbn [bindC]. rewrite Hg. reflexivity.
Qed.

(** A tick of the regular job that finds its guard held awaits nothing and
    logs that it skips the round, but leaves through the [finally] of line
    96 and so clears the guard it does not hold. *)
Lemma endorseTick_guard_held cfg w :
  startupStatus (globals w) = true ->
  endorseRunning (globals w) = true ->
  endorseTick cfg w =
  Done (Returned tt)
       (mkWorld (set_endorseRunning false (globals w))
                (trace w ++ [EvLog Info EndorseSkipping])).
Proof.
  intros Hs Hg. unfold endorseTick. rewrite startup_gate_open by assumption.
  unfold try_finally, try_catch, bind, get. cbn [bindC catchC]. rewrite Hg.
  reflexivity.
Qed.

(** Run alone past the startup gate, either handler leaves its guard
    false, however its cycle ends. *)
Lemma endorseTick_releases env t cfg w :
  startupStatus (globals w) = true ->
  endorseRunning (globals (final (exec env t (endorseTick cfg) w))) = false.
Proof.
  intro Hs. unfold exec, endorseTick. rewrite startup_gate_open by assumption.
  unfold try_finally. rewrite run_finallyC.
  destruct (run env t _) as [[r w'] t']. reflexivity.
Qed.

Lemma endorseCheckTick_releases env t cfg w :
  startupStatus (globals w) = true ->
  endorseCheckRunning (globals w) = false ->
  endorseCheckRunning (globals (final (exec env t (endorseCheckTick cfg) w))) = false.
Proof.
  intros Hs Hg. unfold exec, endorseCheckTick. rewrite startup_gate_open by assumption.
  unfold bind at 1, get. cbn [bindC]. rewrite Hg.
  unfold bind at 1, modify at 1. cbn [bindC].
  unfold try_finally. rewrite run_finallyC.
  destruct (run env t _) as [[r w'] t']. reflexivity.
Qed.

(** C3: the guard of the regular endorsement job does not keep its cycles
    apart.  The first tick takes the guard and waits for [getblockcount];
    the second finds the guard held, skips, and clears it on its way out;
    the third then starts a second cycle while the first is still waiting.
    Both cycles go on to the ledger write for the same block.  The same
    three ticks of the catch-up job leave one cycle in flight. *)
Theorem C3_regular_cycles_overlap :
  let s := schedule initial_system (three_ticks (endorseTick cfg_me)) in
  let s2 := schedule s (answers 6) in
  let s' := schedule initial_system (three_ticks (endorseCheckTick cfg_me)) in
  waiting_for s = [GetBlockCount; GetBlockCount]
  /\ trace (world s)
     = [EvCall GetStartupStatus;
        EvLog Info EndorseTaskRunning; EvCall GetBlockCount;
        EvLog Info EndorseSkipping;
        EvLog Info EndorseTaskRunning; EvCall GetBlockCount]
  /\ waiting_for s2 = [ExecuteAction "me" 510 "h"; ExecuteAction "me" 510 "h"]
  /\ waiting_for s' = [GetChainstate]
  /\ trace (world s')
     = [EvCall GetStartupStatus;
        EvLog Info EndorseCheckTaskRunning; EvCall GetChainstate].
Proof. cbn zeta. repeat split; vm_compute; reflexivity. Qed.

(* ================================================================== *)
(** ** The catch-up guard under every schedule *)

Lemma keeps_bindC {A B} b (c : Coro A) (f : A -> M B) :
  keeps b c -> (forall a, keepsM (f a)) -> keeps b (bindC c f).
Proof.
  intros Hc Hf. revert b Hc.
  induction c as [[a|e] w | c k IH w]; intros b Hc; cbn in *.
  - rewrite <- Hc. apply Hf.
  - exact Hc.
  - destruct Hc as [Hg Hk]. split; [exact Hg|].
    intros r w'. apply IH, Hk.
Qed.

Lemma keepsM_bind {A B} (m : M A) (f : A -> M B) :
  keepsM m -> (forall a, keepsM (f a)) -> keepsM (bind m f).
Proof. intros Hm Hf w. apply keeps_bindC; auto. Qed.

Lemma keeps_catchC {A} b (c : Coro A) (h : Error -> M A) :
  keeps b c -> (forall e, keepsM (h e)) -> keeps b (catchC c h).
Proof.
  intros Hc Hh. revert b Hc.
  induction c as [[a|e] w | c k IH w]; intros b Hc; cbn in *.
  - exact Hc.
  - rewrite <- Hc. apply Hh.
  - destruct Hc as [Hg Hk]. split; [exact Hg|].
    intros r w'. apply IH, Hk.
Qed.

Lemma keepsM_try_catch {A} (m : M A) h :
  keepsM m -> (forall e, keepsM (h e)) -> keepsM (try_catch m h).
Proof. intros Hm Hh w. apply keeps_catchC; auto. Qed.

Lemma keepsM_ret {A} (a : A) : keepsM (ret a).
Proof. intro w. reflexivity. Qed.

Lemma keepsM_get : keepsM get.
Proof. intro w. reflexivity. Qed.

Lemma keepsM_modify f :
  (forall g, endorseCheckRunning (f g) = endorseCheckRunning g) -> keepsM (modify f).
Proof. intros H w. cbn. unfold guard. cbn. apply H. Qed.

Lemma keepsM_emit e : keepsM (emit e).
Proof. intro w. reflexivity. Qed.

Lemma keepsM_await c : keepsM (await c).
Proof. intro w. cbn. split; [reflexivity|]. intros r w'. reflexivity. Qed.

Ltac keeps_step :=
  first
    [ apply keepsM_ret | apply keepsM_get | apply keepsM_emit | apply keepsM_await
    | apply keepsM_modify; intros []; reflexivity
    | apply keepsM_bind; [|intros ?]
    | apply keepsM_try_catch; [|intros ?]
    | match goal with
      | |- keepsM (if ?b then _ else _) => destruct b
      | |- keepsM (match ?x with _ => _ end) => destruct x
      end ].

Lemma keepsM_submitEndorsement v h hash : keepsM (submitEndorsement v h hash).
Proof. unfold submitEndorsement, logger_info, logger_error. repeat keeps_step. Qed.

Lemma keepsM_checkAndSubmitEndorsement a h hash :
  keepsM (checkAndSubmitEndorsement a h hash).
Proof.
  unfold checkAndSubmitEndorsement.
  repeat first [apply keepsM_submitEndorsement | keeps_step].
Qed.

Lemma keepsM_scan_loop fuel a tip : forall i, keepsM (scan_loop fuel a tip i).
Proof.
  induction fuel as [|fuel IH]; intro i; cbn [scan_loop]; unfold logger_info.
  - apply keepsM_ret.
  - repeat first [apply keepsM_checkAndSubmitEndorsement | apply IH | keeps_step].
Qed.

Lemma keeps_finallyC {A} b (c : Coro A) (fin : M unit) :
  keeps b c -> keepsM fin -> keeps b (finallyC c fin).
Proof.
  intros Hc Hf. revert b Hc.
  induction c as [r w | c k IH w]; intros b Hc; cbn in *.
  - apply keeps_bindC; [rewrite <- Hc; apply Hf|].
    intros _ w'. reflexivity.
  - destruct Hc as [Hg Hk]. split; [exact Hg|].
    intros r w'. apply IH, Hk.
Qed.

Lemma keepsM_try_finally {A} (m : M A) fin :
  keepsM m -> keepsM fin -> keepsM (try_finally m fin).
Proof. intros Hm Hf w. apply keeps_finallyC; auto. Qed.

Lemma keepsM_startup_gate k : keepsM k -> keepsM (startup_gate k).
Proof.
  intro Hk. unfold startup_gate, logger_info.
  repeat first [exact Hk | keeps_step].
Qed.

(** The regular endorsement handler never writes the catch-up guard. *)
Lemma keepsM_endorseTick cfg : keepsM (endorseTick cfg).
Proof.
  unfold endorseTick, logger_info, logger_error.
  apply keepsM_startup_gate. apply keepsM_try_finally.
  - repeat first [apply keepsM_checkAndSubmitEndorsement | keeps_step].
  - keeps_step.
Qed.

Lemma keeps_outside b (c : Coro unit) : keeps b c -> outside b c.
Proof.
  revert b. induction c as [r w | c k IH w]; intros b Hc; cbn in *.
  - exact Hc.
  - destruct Hc as [Hg Hk]. left. split; [exact Hg|].
    intros r w'. apply IH, Hk.
Qed.

Lemma in_cycle_outside (c : Coro unit) : in_cycle c -> outside false c.
Proof.
  destruct c as [r w | c k w]; cbn.
  - auto.
  - intros [Hg Hk]. right. auto.
Qed.

Lemma outside_bindC {A} b (c : Coro A) (f : A -> M unit) :
  keeps b c -> (forall a w, outside (guard w) (f a w)) -> outside b (bindC c f).
Proof.
  intros Hc Hf. revert b Hc.
  induction c as [[a|e] w | c k IH w]; intros b Hc; cbn in *.
  - rewrite <- Hc. apply Hf.
  - exact Hc.
  - destruct Hc as [Hg Hk]. left. split; [exact Hg|].
    intros r w'. apply IH, Hk.
Qed.

(** A guarded body that never writes the guard itself, wrapped in the
    [finally] that clears it, is a cycle. *)
Lemma in_cycle_finallyC (c : Coro unit) :
  keeps true c ->
  in_cycle (finallyC c (modify (set_endorseCheckRunning false))).
Proof.
  induction c as [r w | c k IH w]; intro Hc; cbn in *.
  - reflexivity.
  - destruct Hc as [Hg Hk]. split; [exact Hg|].
    intros r w' Hw'. apply IH. rewrite <- Hw'. apply Hk.
Qed.

(** Lines 110-137, from the test of the guard on. *)
Lemma endorseCheckTick_body_outside cfg w :
  outside (guard w)
    ((g <- get ;;
      if endorseCheckRunning g then ret tt
      else
        modify (set_endorseCheckRunning true) ;;
        try_finally
          (try_catch
             (logger_info EndorseCheckTaskRunning ;;
              chainstate <- await GetChainstate ;;
              match chainstate with
              | None => logger_error GetChainstateError
              | Some chainstate =>
                  blockcount <- await GetBlockCount ;;
                  g <- get ;;
                  scan (accountName cfg)
                       (startEndorseHeight chainstate (lastEndorseHeight g) blockcount)
                       (result blockcount)
              end)
             (fun e =>
                logger_error (EndorseCheckTaskError e) ;;
                await (Sleep (RETRY_INTERVAL_MS cfg))))
          (modify (set_endorseCheckRunning false))) w).
Proof.
  unfold bind at 1, get at 1. cbn [bindC].
  destruct (endorseCheckRunning (globals w)) eqn:Hg.
  - reflexivity.
  - unfold bind at 1, modify at 1. cbn [bindC].
    unfold guard. rewrite Hg.
    apply in_cycle_outside. unfold try_finally. apply in_cycle_finallyC.
    match goal with
    | |- keeps _ (try_catch ?m ?h ?w0) =>
        change (keeps (guard w0) (try_catch m h w0)); apply (keepsM_try_catch m h)
    end.
    + unfold logger_info, logger_error, scan.
      repeat first [apply keepsM_scan_loop | keeps_step].
    + intro e. unfold logger_error. repeat keeps_step.
Qed.

Lemma endorseCheckTick_outside cfg w : outside (guard w) (endorseCheckTick cfg w).
Proof.
  unfold endorseCheckTick, startup_gate.
  unfold bind at 1, get at 1. cbn [bindC].
  destruct (negb (startupStatus (globals w))).
  - unfold bind at 1. apply outside_bindC; [apply keepsM_await|].
    intros s w1. unfold bind at 1. apply outside_bindC.
    + apply keepsM_modify. intros []; reflexivity.
    + intros _ w2. destruct (negb s).
      * apply keeps_outside. apply keepsM_emit.
      * apply endorseCheckTick_body_outside.
  - apply endorseCheckTick_body_outside.
Qed.

Lemma endorseTick_outside cfg w : outside (guard w) (endorseTick cfg w).
Proof. apply keeps_outside, keepsM_endorseTick. Qed.

Lemma one_cycle_app_outside b l task :
  one_cycle b l -> task_outside task -> one_cycle b (l ++ [task]).
Proof.
  intros Hl Ht. induction Hl; cbn [app].
  - apply oc_outside; [exact Ht | constructor].
  - apply oc_outside; assumption.
  - apply oc_in_cycle; assumption.
Qed.

Lemma one_cycle_app_in_cycle l task :
  one_cycle false l -> task_in_cycle task -> one_cycle true (l ++ [task]).
Proof.
  intros Hl Ht. remember false as b eqn:Hb.
  induction Hl; cbn [app]; try discriminate Hb.
  - apply oc_in_cycle; [exact Ht | constructor].
  - apply oc_outside; auto.
Qed.

(** Taking the [i]-th suspended handler out of the pool. *)
Lemma one_cycle_remove b l :
  one_cycle b l ->
  forall i task,
    nth_error l i = Some task ->
    (task_outside task /\ one_cycle b (firstn i l ++ skipn (S i) l))
    \/ (b = true /\ task_in_cycle task
        /\ one_cycle false (firstn i l ++ skipn (S i) l)).
Proof.
  induction 1 as [| b t l Ht Hl IH | t l Ht Hl IH]; intros i task Hi.
  - destruct i; discriminate Hi.
  - destruct i as [|i]; cbn in Hi |- *.
    + injection Hi as <-. left. auto.
    + destruct (IH i task Hi) as [[Ho Hr] | [Hb [Hc Hr]]].
      * left. split; [exact Ho | apply oc_outside; assumption].
      * right. split; [exact Hb|]. split; [exact Hc|].
        apply oc_outside; assumption.
  - destruct i as [|i]; cbn in Hi |- *.
    + injection Hi as <-. right. auto.
    + destruct (IH i task Hi) as [[Ho Hr] | [Hb _]]; [|discriminate Hb].
      left. split; [exact Ho | apply oc_in_cycle; assumption].
Qed.

Lemma park_outside b c l :
  one_cycle b l -> outside b c -> guard_consistent (park c l).
Proof.
  intros Hl Hc. destruct c as [r w | c k w]; unfold guard_consistent; cbn in *.
  - rewrite Hc. exact Hl.
  - destruct Hc as [[Hg Hk] | [Hb [Hg Hk]]]; rewrite Hg.
    + apply one_cycle_app_outside; [exact Hl | exact Hk].
    + subst b. apply one_cycle_app_in_cycle; [exact Hl | exact Hk].
Qed.

Lemma park_in_cycle c l :
  one_cycle false l -> in_cycle c -> guard_consistent (park c l).
Proof.
  intros Hl Hc. destruct c as [r w | c k w]; unfold guard_consistent; cbn in *.
  - rewrite Hc. exact Hl.
  - destruct Hc as [Hg Hk]. rewrite Hg.
    apply one_cycle_app_in_cycle; [exact Hl | exact Hk].
Qed.

Lemma step_guard_consistent cfg s a :
  legit cfg a -> guard_consistent s -> guard_consistent (step s a).
Proof.
  intros Ha Hs. destruct Ha as [| | i answer]; cbn [step].
  - apply (park_outside (guard (world s))); [exact Hs | apply endorseTick_outside].
  - apply (park_outside (guard (world s))); [exact Hs | apply endorseCheckTick_outside].
  - destruct (nth_error (pool s) i) as [task|] eqn:Hi; [|exact Hs].
    destruct (one_cycle_remove _ _ Hs i task Hi) as [[Ho Hr] | [Hb [Hc Hr]]].
    + apply (park_outside (guard (world s))); [exact Hr | apply Ho].
    + apply park_in_cycle; [exact Hr | apply Hc, Hb].
Qed.

(** Whatever the order in which the two cron jobs fire and the pending
    calls settle, the catch-up guard is set exactly while one catch-up
    cycle is in flight, and no second one is. *)
Lemma catch_up_cycles_never_overlap cfg actions :
  Forall (legit cfg) actions ->
  guard_consistent (schedule initial_system actions).
Proof.
  intro Hl. unfold schedule.
  assert (H0 : guard_consistent initial_system) by constructor.
  revert H0. generalize initial_system as s.
  induction Hl as [|a l Ha Hl IH]; intros s Hs; cbn [fold_left].
  - exact Hs.
  - apply IH. apply (step_guard_consistent cfg); assumption.
Qed.

(** Reading [one_cycle]: all outside, but for one handler at most. *)
Lemma one_cycle_false l : one_cycle false l -> Forall task_outside l.
Proof.
  intro H. remember false as b eqn:Hb.
  induction H; try discriminate Hb; constructor; auto.
Qed.

Lemma one_cycle_true l :
  one_cycle true l ->
  exists l1 task l2,
    l = (l1 ++ task :: l2)%list
    /\ task_in_cycle task /\ Forall task_outside (l1 ++ l2).
Proof.
  intro H. remember true as b eqn:Hb.
  induction H as [| b t l Ht Hl IH | t l Ht Hl IH]; try discriminate Hb.
  - destruct (IH Hb) as [l1 [task [l2 [-> [Hc Ho]]]]].
    exists (t :: l1), task, l2. split; [reflexivity|]. split; [exact Hc|].
    constructor; assumption.
  - exists [], t, l. split; [reflexivity|]. split; [exact Ht|].
    apply one_cycle_false. exact Hl.
Qed.

(* ================================================================== *)
(** ** More on the Qualification Evaluator *)

(** X1: the answer of [isEndorserQualified] depends on the set of account
    names in the list only: neither the order of the entries, nor their
    repetition, nor their [staking] matters. *)
Theorem X1_isEndorserQualified_accounts_only :
  forall (l1 l2 : list Endorser) (accountName : string),
    (forall a, In a (map account l1) <-> In a (map account l2)) ->
    isEndorserQualified l1 accountName = isEndorserQualified l2 accountName.
Proof.
  intros l1 l2 a H.
  destruct (isEndorserQualified l1 a) eqn:H1.
  - symmetry. apply isEndorserQualified_In, H, isEndorserQualified_In, H1.
  - symmetry. apply isEndorserQualified_not_In. intro Hin.
    apply isEndorserQualified_not_In in H1. apply H1, H, Hin.
Qed.

Lemma X1_isEndorserQualified_accounts_only_witness :
  isEndorserQualified [mkEndorser "a" 1; mkEndorser "b" 2] "b"
  = isEndorserQualified [mkEndorser "b" 70; mkEndorser "a" 0; mkEndorser "b" 5] "b".
Proof.
  apply X1_isEndorserQualified_accounts_only.
  intro a. simpl. tauto.
Defined.

(* ================================================================== *)
(** ** More on the Submitter *)

(** X2: a rejected ledger write changes no global and logs exactly one
    line.  The line is informational when the message of the error (the
    empty string when it has none) contains one of the two markers, the
    already-parsed one winning when both occur, and it is at error level
    exactly when the message contains neither. *)
Theorem X2_rejected_write_classification :
  forall (env : Env) t validator height hash w e,
    env t (ExecuteAction validator height hash) = Threw e ->
    let x := exec env t (submitEndorsement validator height hash) w in
    let msg := message_or_empty e in
    globals (final x) = globals w
    /\ exists line,
        trace (final x)
        = (trace w ++ [EvCall (ExecuteAction validator height hash); line])%list
        /\ (includes msg parsed_marker = true ->
            line = EvLog Info (BlockParsed height hash))
        /\ (includes msg parsed_marker = false ->
            includes msg disabled_marker = true ->
            line = EvLog Info (WaitEnabled height hash))
        /\ (line = EvLog Err (SubmitFailed validator height hash e)
            <-> includes msg parsed_marker = false
                /\ includes msg disabled_marker = false).
Proof.
  intros env t v h hash w e He x msg. subst x msg.
  rewrite exec_submitEndorsement. cbn zeta. rewrite He.
  unfold final; cbn [fst snd write_succeeds trace globals submit_log].
  fold parsed_marker disabled_marker. split; [reflexivity|].
  destruct (includes (message_or_empty e) parsed_marker);
    [|destruct (includes (message_or_empty e) disabled_marker)];
    eexists; (split; [reflexivity|]); repeat split;
    try discriminate; try reflexivity;
    try (intros [? ?]; discriminate); auto.
Qed.

Lemma X2_rejected_write_classification_witness :
  let env := network record_absent (fun _ _ _ _ => Threw (mkError None)) in
  trace (final (exec env 0 (submitEndorsement "me" 100 "abcd") initial_world))
  = [EvCall (ExecuteAction "me" 100 "abcd");
     EvLog Err (SubmitFailed "me" 100 "abcd" (mkError None))].
Proof.
  cbn zeta.
  destruct (X2_rejected_write_classification
              (network record_absent (fun _ _ _ _ => Threw (mkError None)))
              0%nat "me" 100 "abcd" initial_world (mkError None) eq_refl)
    as [_ [line [Htr [_ [_ Herr]]]]].
  rewrite Htr. cbn [trace initial_world app].
  rewrite (proj2 Herr (conj eq_refl eq_refl)). reflexivity.
Defined.

(** X3: [submitEndorsement] writes one global only, [lastEndorseHeight],
    and only when the ledger write resolves with a non-empty transaction
    id; it then logs the success.  A write that resolves to nothing, or
    without a transaction id, or with an empty one, leaves every global as
    it was and no line in the log; a write that is rejected leaves every
    global as it was. *)
Theorem X3_submitEndorsement_effects :
  forall (env : Env) t validator height hash w,
    let x := exec env t (submitEndorsement validator height hash) w in
    let call := EvCall (ExecuteAction validator height hash) in
    (forall a tx,
        env t (ExecuteAction validator height hash) = Returned (Some a) ->
        transaction_id a = Some tx -> tx <> "" ->
        globals (final x) = set_lastEndorseHeight height (globals w)
        /\ trace (final x)
           = (trace w ++ [call; EvLog Info (SubmitSuccess validator height hash tx)])%list)
    /\ (env t (ExecuteAction validator height hash) = Returned None
        \/ (exists a, env t (ExecuteAction validator height hash) = Returned (Some a)
                      /\ (transaction_id a = None \/ transaction_id a = Some "")) ->
        globals (final x) = globals w
        /\ trace (final x) = (trace w ++ [call])%list)
    /\ (forall e,
           env t (ExecuteAction validator height hash) = Threw e ->
           globals (final x) = globals w)
    /\ endorseRunning (globals (final x)) = endorseRunning (globals w)
    /\ endorseCheckRunning (globals (final x)) = endorseCheckRunning (globals w)
    /\ startupStatus (globals (final x)) = startupStatus (globals w)
    /\ lastSubmittedHeight (globals (final x)) = lastSubmittedHeight (globals w).
Proof.
  intros env t v h hash w x call. subst x call.
  rewrite exec_submitEndorsement. cbn zeta.
  unfold final; cbn [fst snd trace globals].
  split; [|split; [|split]].
  - intros a tx -> Htx Hne. cbn [write_succeeds submit_log]. rewrite Htx.
    destruct tx as [|c tx]; [congruence|]. split; reflexivity.
  - intros [-> | [a [-> [Hid | Hid]]]]; cbn [write_succeeds submit_log];
      rewrite ?Hid; cbn [truthy_string]; split; reflexivity.
  - intros e ->. reflexivity.
  - destruct (write_succeeds _); repeat split; reflexivity.
Qed.

Lemma X3_submitEndorsement_effects_witness :
  let x := exec (network record_absent accepted) 0
                (submitEndorsement "me" 100 "abcd") initial_world in
  let y := exec (network record_absent
                         (fun _ _ _ _ => Returned (Some (mkActionResult (Some "")))))
                0 (submitEndorsement "me" 100 "abcd") initial_world in
  let z := exec (network record_absent (rejected "connection refused")) 0
                (submitEndorsement "me" 100 "abcd") world_after_503 in
  lastEndorseHeight (globals (final x)) = 100
  /\ trace (final y) = [EvCall (ExecuteAction "me" 100 "abcd")]
  /\ globals (final z) = globals world_after_503.
Proof.
  cbn zeta. split; [|split].
  3: exact (proj1 (proj2 (proj2 (X3_submitEndorsement_effects
              (network record_absent (rejected "connection refused")) 0%nat
              "me" 100 "abcd" world_after_503)))
            (mkError (Some "connection refused")) eq_refl).
  - destruct (proj1 (X3_submitEndorsement_effects
                       (network record_absent accepted) 0%nat "me" 100 "abcd"
                       initial_world)
                (mkActionResult (Some "tx1")) "tx1" eq_refl eq_refl
                ltac:(discriminate)) as [Hg _].
    rewrite Hg. reflexivity.
  - destruct (proj1 (proj2 (X3_submitEndorsement_effects
                       (network record_absent
                          (fun _ _ _ _ => Returned (Some (mkActionResult (Some "")))))
                       0%nat "me" 100 "abcd" initial_world))
                (or_intror (ex_intro _ (mkActionResult (Some ""))
                                     (conj eq_refl (or_intror eq_refl)))))
      as [_ Htr].
    rewrite Htr. reflexivity.
Defined.

(* ================================================================== *)
(** ** More on the Reconciler *)

(** X4: when the ledger read fails, [checkAndSubmitEndorsement] throws the
    same error to its caller: no ledger write is made and no global
    changes. *)
Theorem X4_read_failure_propagates :
  forall (env : Env) t accountName height hash w e,
    env t (GetEndorsementByBlockId height hash) = Threw e ->
    let x := exec env t (checkAndSubmitEndorsement accountName height hash) w in
    outcome x = Threw e
    /\ globals (final x) = globals w
    /\ trace (final x) = (trace w ++ [EvCall (GetEndorsementByBlockId height hash)])%list.
Proof.
  intros env t a h hash w e He x. subst x.
  rewrite exec_checkAndSubmitEndorsement. cbn zeta. rewrite He.
  repeat split.
Qed.

Lemma X4_read_failure_propagates_witness :
  outcome (exec (network (fun _ _ _ => Threw (mkError (Some "ECONNRESET"))) accepted) 0
             (checkAndSubmitEndorsement "me" 100 "abcd") initial_world)
  = Threw (mkError (Some "ECONNRESET")).
Proof.
  apply (X4_read_failure_propagates
           (network (fun _ _ _ => Threw (mkError (Some "ECONNRESET"))) accepted)
           0%nat "me" 100 "abcd" initial_world (mkError (Some "ECONNRESET"))).
  reflexivity.
Defined.

(** X5: when a record exists and [accountName] is not among its
    [requested_validators], [checkAndSubmitEndorsement] does nothing but
    the read, whether or not [accountName] is among the providers: no
    ledger write, no global changed, normal return. *)
Theorem X5_not_requested_no_submission :
  forall (env : Env) t accountName height hash w r,
    env t (GetEndorsementByBlockId height hash) = Returned (Some r) ->
    ~ In accountName (map account (requested_validators r)) ->
    let x := exec env t (checkAndSubmitEndorsement accountName height hash) w in
    outcome x = Returned tt
    /\ globals (final x) = globals w
    /\ trace (final x) = (trace w ++ [EvCall (GetEndorsementByBlockId height hash)])%list.
Proof.
  intros env t a h hash w r He Hreq x. subst x.
  rewrite exec_checkAndSubmitEndorsement. cbn zeta. rewrite He.
  apply isEndorserQualified_not_In in Hreq. unfold pending. rewrite Hreq.
  repeat split.
Qed.

Lemma X5_not_requested_no_submission_witness :
  trace (final (exec (network (fun _ _ _ => Returned (Some (mkEndorsement [] []))) accepted)
                  0 (checkAndSubmitEndorsement "me" 100 "abcd") initial_world))
  = [EvCall (GetEndorsementByBlockId 100 "abcd")].
Proof.
  apply (X5_not_requested_no_submission
           (network (fun _ _ _ => Returned (Some (mkEndorsement [] []))) accepted)
           0%nat "me" 100 "abcd" initial_world (mkEndorsement [] []) eq_refl).
  simpl. tauto.
Defined.

(* ================================================================== *)
(** ** The handlers, run alone *)

Lemma exec_startup_gate env t k w :
  exec env t (startup_gate k) w =
  if startupStatus (globals w) then exec env t k w
  else match env t GetStartupStatus with
       | Threw e => (Threw e, call_world GetStartupStatus w, S t)
       | Returned s =>
           if s then exec env (S t) k (polled s w)
           else (Returned tt, log_world Info NotLaunched (polled s w), S t)
       end.
Proof.
  unfold startup_gate. exec_step.
  destruct (startupStatus (globals w)); cbn [negb]; [reflexivity|].
  exec_step. destruct (env t GetStartupStatus) as [s|e]; cbn beta iota.
  - exec_step. destruct s; cbn [negb]; reflexivity.
  - reflexivity.
Qed.

Lemma exec_sleep env t ms w :
  @exec unit env t (await (Sleep ms)) w =
  (env t (Sleep ms), call_world (Sleep ms) w, S t).
Proof. reflexivity. Qed.

Lemma exec_endorseTick_cycle env t cfg w :
  startupStatus (globals w) = true ->
  endorseRunning (globals w) = false ->
  exec env t (endorseTick cfg) w =
  end_of_endorse env cfg
    (match env t GetBlockCount with
     | Threw e => (Threw e, call_world GetBlockCount (endorse_started w), S t)
     | Returned blockcountInfo =>
         let w1 := call_world (GetBlockHash (result blockcountInfo))
                              (call_world GetBlockCount (endorse_started w)) in
         match env (S t) (GetBlockHash (result blockcountInfo)) with
         | Threw e => (Threw e, w1, S (S t))
         | Returned blockhashInfo =>
             exec env (S (S t))
                  (checkAndSubmitEndorsement (accountName cfg)
                     (result blockcountInfo) (result blockhashInfo)) w1
         end
     end).
Proof.
  intros Hs Hg. unfold endorseTick. rewrite exec_startup_gate, Hs.
  exec_step. rewrite Hg. unfold logger_info, logger_error. exec_step.
  unfold call_world, endorse_started, log_world. cbn [globals trace].
  destruct (env t GetBlockCount) as [bc|e]; cbn beta iota zeta.
  - exec_step. destruct (env (S t) (GetBlockHash (result bc))) as [bh|e];
      cbn beta iota.
    + match goal with
      | |- context [exec env (S (S t)) (checkAndSubmitEndorsement ?a ?h ?hs) ?w0] =>
          set (X := exec env (S (S t)) (checkAndSubmitEndorsement a h hs) w0)
      end.
      match goal with
      | |- _ = end_of_endorse _ _ ?rhs => change rhs with X
      end.
      destruct X as [[[u|e] w3] t3]; cbn beta iota.
      * destruct u. exec_step. reflexivity.
      * exec_step. rewrite exec_sleep. unfold end_of_endorse, call_world, log_world.
        destruct (env t3 (Sleep (RETRY_INTERVAL_MS cfg))) as [u|e'];
          cbn beta iota; exec_step; try destruct u; reflexivity.
    + exec_step. rewrite exec_sleep.
      unfold end_of_endorse, call_world, log_world. cbn beta iota zeta.
      destruct (env (S (S t)) (Sleep (RETRY_INTERVAL_MS cfg))) as [u|e'];
        cbn beta iota; exec_step; try destruct u; reflexivity.
  - exec_step. rewrite exec_sleep.
    unfold end_of_endorse, call_world, log_world. cbn beta iota zeta.
    destruct (env (S t) (Sleep (RETRY_INTERVAL_MS cfg))) as [u|e'];
      cbn beta iota; exec_step; try destruct u; reflexivity.
Qed.

Lemma exec_endorseCheckTick_cycle env t cfg w :
  startupStatus (globals w) = true ->
  endorseCheckRunning (globals w) = false ->
  exec env t (endorseCheckTick cfg) w =
  end_of_endorseCheck env cfg
    (match env t GetChainstate with
     | Threw e => (Threw e, call_world GetChainstate (endorseCheck_started w), S t)
     | Returned None =>
         (Returned tt,
          log_world Err GetChainstateError
                    (call_world GetChainstate (endorseCheck_started w)),
          S t)
     | Returned (Some chainstate) =>
         let w1 := call_world GetBlockCount
                              (call_world GetChainstate (endorseCheck_started w)) in
         match env (S t) GetBlockCount with
         | Threw e => (Threw e, w1, S (S t))
         | Returned blockcount =>
             exec env (S (S t))
                  (scan (accountName cfg) (irreversible_height chainstate + 1)
                        (result blockcount)) w1
         end
     end).
Proof.
  intros Hs Hg. unfold endorseCheckTick. rewrite exec_startup_gate, Hs.
  exec_step. rewrite Hg. unfold logger_info, logger_error. exec_step.
  unfold call_world, endorseCheck_started, log_world. cbn [globals trace].
  destruct (env t GetChainstate) as [[cs|]|e]; cbn beta iota zeta.
  - exec_step. destruct (env (S t) GetBlockCount) as [bc|e]; cbn beta iota.
    + exec_step. rewrite startEndorseHeight_eq.
      match goal with
      | |- context [exec env (S (S t)) (scan ?a ?s ?tp) ?w0] =>
          set (X := exec env (S (S t)) (scan a s tp) w0)
      end.
      match goal with
      | |- _ = end_of_endorseCheck _ _ ?rhs => change rhs with X
      end.
      destruct X as [[[u|e] w3] t3]; cbn beta iota.
      * destruct u. exec_step. reflexivity.
      * exec_step. rewrite exec_sleep.
        unfold end_of_endorseCheck, call_world, log_world.
        destruct (env t3 (Sleep (RETRY_INTERVAL_MS cfg))) as [u|e'];
          cbn beta iota; exec_step; try destruct u; reflexivity.
    + exec_step. rewrite exec_sleep.
      unfold end_of_endorseCheck, call_world, log_world. cbn beta iota zeta.
      destruct (env (S (S t)) (Sleep (RETRY_INTERVAL_MS cfg))) as [u|e'];
        cbn beta iota; exec_step; try destruct u; reflexivity.
  - exec_step. reflexivity.
  - exec_step. rewrite exec_sleep.
    unfold end_of_endorseCheck, call_world, log_world. cbn beta iota zeta.
    destruct (env (S t) (Sleep (RETRY_INTERVAL_MS cfg))) as [u|e'];
      cbn beta iota; exec_step; try destruct u; reflexivity.
Qed.

(* ================================================================== *)
(** ** What a scan can and cannot do *)

Lemma scan_event_widen a tip lo hi lo' hi' e :
  lo' <= lo -> hi <= hi' -> scan_event a tip lo hi e -> scan_event a tip lo' hi' e.
Proof.
  intros Hlo Hhi. destruct e as [[]|[] []]; cbn; try tauto;
    intro H; decompose [and] H; repeat split; (assumption || lia).
Qed.

Lemma scan_event_submit_log a tip h hash r :
  Forall (scan_event a tip h h) (submit_log a h hash r).
Proof.
  destruct r as [[[[tx|]]|]|e]; cbn [submit_log transaction_id].
  - destruct (truthy_string tx); repeat constructor; lia.
  - constructor.
  - constructor.
  - destruct (includes _ _); [|destruct (includes _ _)];
      repeat constructor; lia.
Qed.

Lemma trace_checkAndSubmitEndorsement env t a tip h hash w :
  exists new,
    trace (final (exec env t (checkAndSubmitEndorsement a h hash) w))
    = (trace w ++ new)%list
    /\ Forall (scan_event a tip h h) new.
Proof.
  rewrite exec_checkAndSubmitEndorsement. cbn zeta.
  assert (Hread : scan_event a tip h h (EvCall (GetEndorsementByBlockId h hash)))
    by (cbn; lia).
  assert (Hwrite : scan_event a tip h h (EvCall (ExecuteAction a h hash)))
    by (cbn; split; [reflexivity | lia]).
  pose proof (scan_event_submit_log a tip h hash
                (env (S t) (ExecuteAction a h hash))) as Hlog.
  destruct (env t (GetEndorsementByBlockId h hash)) as [[r|]|e];
    [destruct (pending r a)| |];
    unfold final, submit_world, call_world; cbn [fst snd trace].
  - eexists. rewrite <- app_assoc. split; [reflexivity|].
    constructor; [exact Hread|]. constructor; [exact Hwrite | exact Hlog].
  - eexists. split; [reflexivity|]. constructor; [exact Hread | constructor].
  - eexists. rewrite <- app_assoc. split; [reflexivity|].
    constructor; [exact Hread|]. constructor; [exact Hwrite | exact Hlog].
  - eexists. split; [reflexivity|]. constructor; [exact Hread | constructor].
Qed.

Lemma trace_scan_loop env a tip fuel :
  forall t i w,
    exists new,
      trace (final (exec env t (scan_loop fuel a tip i) w)) = (trace w ++ new)%list
      /\ Forall (scan_event a tip i tip) new.
Proof.
  induction fuel as [|fuel IH]; intros t i w.
  - exists []. rewrite app_nil_r. split; [reflexivity | constructor].
  - rewrite exec_scan_loop_S. destruct (Z.leb_spec i tip) as [Hle|Hgt].
    + destruct (env t (GetBlockHash i)) as [bh|e].
      * destruct (trace_checkAndSubmitEndorsement env (S t) a tip i (result bh)
                    (log_world Info (CheckEndorsement i tip)
                               (call_world (GetBlockHash i) w)))
          as [new1 [Htr1 Hnew1]].
        destruct (exec env (S t) (checkAndSubmitEndorsement a i (result bh)) _)
          as [[[u|e] w2] t2]; unfold final in Htr1; cbn [fst snd] in Htr1;
          unfold log_world, call_world in Htr1; cbn [trace] in Htr1.
        -- destruct (IH t2 (i + 1) w2) as [new2 [Htr2 Hnew2]].
           exists ([EvCall (GetBlockHash i); EvLog Info (CheckEndorsement i tip)]
                     ++ new1 ++ new2)%list.
           split.
           ++ rewrite Htr2, Htr1. rewrite <- !app_assoc. reflexivity.
           ++ constructor; [cbn; lia|]. constructor; [cbn; split; [reflexivity|lia]|].
              apply Forall_app. split.
              ** eapply Forall_impl; [|exact Hnew1].
                 intro e. apply scan_event_widen; lia.
              ** eapply Forall_impl; [|exact Hnew2].
                 intro e. apply scan_event_widen; lia.
        -- exists ([EvCall (GetBlockHash i); EvLog Info (CheckEndorsement i tip)]
                     ++ new1)%list.
           split.
           ++ unfold final; cbn [fst snd]. rewrite Htr1.
              rewrite <- !app_assoc. reflexivity.
           ++ constructor; [cbn; lia|]. constructor; [cbn; split; [reflexivity|lia]|].
              eapply Forall_impl; [|exact Hnew1].
              intro e'. apply scan_event_widen; lia.
      * exists [EvCall (GetBlockHash i)]. split; [reflexivity|].
        repeat constructor; lia.
    + exists []. rewrite app_nil_r. split; [reflexivity | constructor].
Qed.

Lemma scan_event_projections a tip lo hi new :
  Forall (scan_event a tip lo hi) new ->
  sleeps new = [] /\ gate_polls new = 0%nat
  /\ Forall (fun x => fst (fst x) = a /\ lo <= snd (fst x) <= hi) (writes new).
Proof.
  induction 1 as [|e l He Hl [IH1 [IH2 IH3]]].
  - repeat split; constructor.
  - destruct e as [[]|[] []]; cbn in He; try contradiction;
      cbn [sleeps gate_polls writes flat_map filter app List.length] in *;
      repeat split; auto.
Qed.

Lemma writes_app tr1 tr2 : writes (tr1 ++ tr2) = (writes tr1 ++ writes tr2)%list.
Proof. unfold writes. apply flat_map_app. Qed.

Lemma write_heights_app tr1 tr2 :
  write_heights (tr1 ++ tr2) = (write_heights tr1 ++ write_heights tr2)%list.
Proof. unfold write_heights. rewrite writes_app. apply map_app. Qed.

Lemma sleeps_app tr1 tr2 : sleeps (tr1 ++ tr2) = (sleeps tr1 ++ sleeps tr2)%list.
Proof. unfold sleeps. apply flat_map_app. Qed.

Lemma gate_polls_app tr1 tr2 :
  gate_polls (tr1 ++ tr2) = (gate_polls tr1 + gate_polls tr2)%nat.
Proof. unfold gate_polls. rewrite filter_app. apply length_app. Qed.

Lemma writes_submit_log v h hash r : writes (submit_log v h hash r) = [].
Proof.
  destruct r as [[[[tx|]]|]|e]; simpl; try reflexivity.
  - destruct (truthy_string tx); reflexivity.
  - destruct (includes _ _); [|destruct (includes _ _)]; reflexivity.
Qed.

(** One call of the Reconciler makes at most one ledger write, for its own
    height. *)
Lemma write_heights_checkAndSubmitEndorsement env t a h hash w :
  exists l,
    write_heights (trace (final (exec env t (checkAndSubmitEndorsement a h hash) w)))
    = (write_heights (trace w) ++ l)%list
    /\ (l = [] \/ l = [h]).
Proof.
  rewrite exec_checkAndSubmitEndorsement. cbn zeta.
  assert (Hw : forall r,
             write_heights (trace (submit_world a h hash r
                              (call_world (GetEndorsementByBlockId h hash) w)))
             = (write_heights (trace w) ++ [h])%list).
  { intro r. unfold submit_world, call_world; cbn [trace].
    rewrite !write_heights_app. unfold write_heights at 2 3 4.
    rewrite writes_submit_log. cbn. rewrite app_nil_r. reflexivity. }
  assert (Hr : write_heights (trace (call_world (GetEndorsementByBlockId h hash) w))
               = (write_heights (trace w) ++ [])%list).
  { unfold call_world; cbn [trace]. rewrite write_heights_app. reflexivity. }
  destruct (env t (GetEndorsementByBlockId h hash)) as [[r|]|e];
    [destruct (pending r a)| |]; unfold final; cbn [fst snd trace].
  - exists [h]. rewrite Hw. auto.
  - exists []. rewrite Hr. auto.
  - exists [h]. rewrite Hw. auto.
  - exists []. rewrite Hr. auto.
Qed.

Lemma write_heights_scan_loop env a tip fuel :
  forall t i w,
    exists hs,
      write_heights (trace (final (exec env t (scan_loop fuel a tip i) w)))
      = (write_heights (trace w) ++ hs)%list
      /\ StronglySorted Z.lt hs
      /\ Forall (fun h => i <= h) hs.
Proof.
  induction fuel as [|fuel IH]; intros t i w.
  - exists []. rewrite app_nil_r. repeat split; constructor.
  - rewrite exec_scan_loop_S. destruct (Z.leb_spec i tip) as [Hle|Hgt].
    + destruct (env t (GetBlockHash i)) as [bh|e].
      * destruct (write_heights_checkAndSubmitEndorsement env (S t) a i (result bh)
                    (log_world Info (CheckEndorsement i tip)
                               (call_world (GetBlockHash i) w)))
          as [l [Hl Hcase]].
        assert (Hpre : write_heights
                         (trace (log_world Info (CheckEndorsement i tip)
                                           (call_world (GetBlockHash i) w)))
                       = write_heights (trace w)).
        { unfold log_world, call_world; cbn [trace].
          rewrite !write_heights_app. cbn. rewrite !app_nil_r. reflexivity. }
        rewrite Hpre in Hl.
        destruct (exec env (S t) (checkAndSubmitEndorsement a i (result bh)) _)
          as [[[u|e] w2] t2]; unfold final in Hl; cbn [fst snd] in Hl.
        -- destruct (IH t2 (i + 1) w2) as [hs [Hhs [Hsorted Hlow]]].
           exists (l ++ hs)%list. split; [rewrite Hhs, Hl, app_assoc; reflexivity|].
           destruct Hcase as [-> | ->]; cbn [app].
           ++ split; [exact Hsorted|].
              eapply Forall_impl; [|exact Hlow]. cbn. intros; lia.
           ++ split.
              ** constructor; [exact Hsorted|].
                 eapply Forall_impl; [|exact Hlow]. cbn. intros; lia.
              ** constructor; [lia|].
                 eapply Forall_impl; [|exact Hlow]. cbn. intros; lia.
        -- exists l. unfold final; cbn [fst snd]. split; [exact Hl|].
           destruct Hcase as [-> | ->]; repeat constructor. lia.
      * exists []. unfold final, call_world; cbn [fst snd trace].
        rewrite write_heights_app. cbn. repeat split; constructor.
    + exists []. rewrite app_nil_r. repeat split; constructor.
Qed.

(** X6: what a catch-up scan can do.  Its events are hash lookups, ledger
    reads and ledger writes for heights from [start] to [tip] and the log
    lines that go with them: it never sleeps and never polls the startup
    status; every ledger write is made in the name of [accountName]; and
    the heights of its writes are strictly ascending, so that no height is
    written twice in one scan. *)
Theorem X6_scan_events :
  forall env accountName start tip t w,
  exists new,
    trace (final (exec env t (scan accountName start tip) w)) = (trace w ++ new)%list
    /\ Forall (scan_event accountName tip start tip) new
    /\ sleeps new = []
    /\ gate_polls new = 0%nat
    /\ Forall (fun x => fst (fst x) = accountName /\ start <= snd (fst x) <= tip)
              (writes new)
    /\ StronglySorted Z.lt (write_heights new).
Proof.
  intros env a start tip t w. unfold scan.
  destruct (trace_scan_loop env a tip (scan_fuel start tip) t start w)
    as [new [Htr Hnew]].
  destruct (scan_event_projections a tip start tip new Hnew) as [Hs [Hg Hw]].
  destruct (write_heights_scan_loop env a tip (scan_fuel start tip) t start w)
    as [hs [Hhs [Hsorted _]]].
  exists new. repeat split; auto.
  rewrite Htr, write_heights_app in Hhs. apply app_inv_head in Hhs.
  rewrite Hhs. exact Hsorted.
Qed.

Lemma nothing_pending_not_pending a r :
  ~ In a (map account (requested_validators r))
  \/ In a (map account (provider_validators r)) ->
  pending r a = false.
Proof.
  unfold pending. intros [H|H].
  - apply isEndorserQualified_not_In in H. rewrite H. reflexivity.
  - apply isEndorserQualified_In in H. rewrite H. apply andb_false_r.
Qed.

Lemma scan_loop_nothing_pending env a tip fuel :
  nothing_pending env a ->
  forall t i w,
    let w' := final (exec env t (scan_loop fuel a tip i) w) in
    globals w' = globals w /\ writes (trace w') = writes (trace w).
Proof.
  intros Hnp. induction fuel as [|fuel IH]; intros t i w; cbn zeta.
  - split; reflexivity.
  - rewrite exec_scan_loop_S. destruct (i <=? tip); [|split; reflexivity].
    destruct (env t (GetBlockHash i)) as [bh|e].
    + rewrite exec_checkAndSubmitEndorsement. cbn zeta.
      destruct (Hnp (S t) i (result bh)) as [r [-> Hr]].
      rewrite (nothing_pending_not_pending a r Hr).
      specialize (IH (S (S t)) (i + 1)
                     (call_world (GetEndorsementByBlockId i (result bh))
                        (log_world Info (CheckEndorsement i tip)
                                   (call_world (GetBlockHash i) w)))).
      cbn zeta in IH. destruct IH as [IHg IHw].
      rewrite IHg, IHw. unfold call_world, log_world; cbn [globals trace].
      rewrite !writes_app. cbn. rewrite !app_nil_r. split; reflexivity.
    + unfold final, call_world; cbn [fst snd globals trace].
      rewrite writes_app. cbn. rewrite app_nil_r. split; reflexivity.
Qed.

(** X7: a catch-up scan never endorses again.  When every record read
    gives [accountName] nothing to do (it is not requested, or it is
    already among the providers), the scan makes no ledger write and leaves
    every global, [lastSubmittedHeight] included, as it found it, however
    far it gets. *)
Theorem X7_scan_never_endorses_again :
  forall env accountName start tip t w,
    nothing_pending env accountName ->
    let w' := final (exec env t (scan accountName start tip) w) in
    writes (trace w') = writes (trace w) /\ globals w' = globals w.
Proof.
  intros env a start tip t w Hnp. cbn zeta. unfold scan.
  destruct (scan_loop_nothing_pending env a tip (scan_fuel start tip) Hnp t start w)
    as [Hg Hw].
  split; assumption.
Qed.

Lemma X7_scan_never_endorses_again_witness :
  writes (trace (final (exec (network record_provided accepted) 0
                          (scan "me" 501 510) initial_world))) = [].
Proof.
  apply (X7_scan_never_endorses_again
           (network record_provided accepted) "me" 501 510 0%nat initial_world).
  intros t h hash. exists (mkEndorsement [me] [me]).
  split; [reflexivity | right; simpl; auto].
Defined.

Lemma scan_loop_no_records env a tip fuel :
  no_records env ->
  forall t i w,
    let x := exec env t (scan_loop fuel a tip i) w in
    outcome x = Returned tt
    /\ ping (final x) = ping w
    /\ write_heights (trace (final x))
       = (write_heights (trace w)
          ++ heights_from i (Nat.min fuel (Z.to_nat (tip - i + 1))))%list.
Proof.
  intros [Hhash Hread]. induction fuel as [|fuel IH]; intros t i w; cbn zeta.
  - cbn [Nat.min heights_from]. rewrite app_nil_r. repeat split.
  - rewrite exec_scan_loop_S. destruct (Z.leb_spec i tip) as [Hle|Hgt].
    + destruct (Hhash t i) as [bh ->].
      rewrite exec_checkAndSubmitEndorsement. cbn zeta.
      rewrite (Hread (S t) i (result bh)).
      match goal with
      | |- context [exec env ?t2 (scan_loop fuel a tip (i + 1)) ?w2] =>
          specialize (IH t2 (i + 1) w2); cbn zeta in IH;
          destruct IH as [IHo [IHp IHw]]
      end.
      split; [exact IHo|]. split.
      * rewrite IHp. unfold ping.
        rewrite lastSubmittedHeight_submit_world. reflexivity.
      * rewrite IHw. unfold submit_world, call_world, log_world; cbn [trace].
        rewrite !write_heights_app. unfold write_heights at 2 3 4 5 6.
        rewrite writes_submit_log. cbn [writes flat_map map app fst snd].
        rewrite !app_nil_r, <- app_assoc. cbn [app].
        replace (Z.to_nat (tip - i + 1)) with (S (Z.to_nat (tip - (i + 1) + 1))) by lia.
        cbn [Nat.min heights_from]. reflexivity.
    + replace (Z.to_nat (tip - i + 1)) with 0%nat by lia.
      rewrite Nat.min_0_r. cbn [heights_from]. rewrite app_nil_r. repeat split.
Qed.

(** X8: while the ledger holds no endorsement record, a catch-up scan whose
    hash lookups return submits an endorsement for every height from
    [start] to [tip], in order, and [/ping] keeps reporting what it reported
    before: writes made for blocks without a record never reach
    [lastSubmittedHeight]. *)
Theorem X8_scan_without_records :
  forall env accountName start tip t w,
    no_records env ->
    let x := exec env t (scan accountName start tip) w in
    outcome x = Returned tt
    /\ write_heights (trace (final x))
       = (write_heights (trace w)
          ++ heights_from start (Z.to_nat (tip - start + 1)))%list
    /\ ping (final x) = ping w.
Proof.
  intros env a start tip t w Hnr. cbn zeta. unfold scan, scan_fuel.
  destruct (scan_loop_no_records env a tip (Z.to_nat (tip - start + 1)) Hnr t start w)
    as [Ho [Hp Hw]].
  rewrite Nat.min_id in Hw. repeat split; assumption.
Qed.

Lemma X8_scan_without_records_witness :
  let x := exec (network record_absent accepted) 0 (scan "me" 501 503) initial_world in
  outcome x = Returned tt
  /\ write_heights (trace (final x)) = [501; 502; 503]
  /\ ping (final x) = 0.
Proof.
  apply (X8_scan_without_records
           (network record_absent accepted) "me" 501 503 0%nat initial_world).
  split.
  - intros t h. eexists. reflexivity.
  - intros t h hash. reflexivity.
Defined.

(* ================================================================== *)
(** ** A tick of the regular job, run alone *)

Lemma task_errors_app tr1 tr2 :
  task_errors (tr1 ++ tr2) = (task_errors tr1 + task_errors tr2)%nat.
Proof. unfold task_errors. rewrite filter_app. apply length_app. Qed.

Lemma scan_event_no_task_error a tip lo hi new :
  Forall (scan_event a tip lo hi) new -> task_errors new = 0%nat.
Proof.
  induction 1 as [|e l He Hl IH]; [reflexivity|].
  destruct e as [[]|[] []]; cbn in He; try contradiction; exact IH.
Qed.

(** X9: a tick of the regular job that finds the gate open and its guard
    free, and whose two lookups and ledger read return, reconciles one
    height, the tip reported by [getblockcount], with the hash reported
    for it; it makes one ledger write in the name of [accountName] when
    there is no record or [accountName] is requested and not yet a
    provider, and none otherwise; it does not sleep, returns normally and
    leaves its guard false. *)
Theorem X9_regular_tick :
  forall (env : Env) t cfg w blockcountInfo blockhashInfo rec,
    startupStatus (globals w) = true ->
    endorseRunning (globals w) = false ->
    env t GetBlockCount = Returned blockcountInfo ->
    env (S t) (GetBlockHash (result blockcountInfo)) = Returned blockhashInfo ->
    env (S (S t)) (GetEndorsementByBlockId (result blockcountInfo)
                                           (result blockhashInfo)) = Returned rec ->
    let x := exec env t (endorseTick cfg) w in
    outcome x = Returned tt
    /\ endorseRunning (globals (final x)) = false
    /\ reconciled (trace (final x))
       = (reconciled (trace w) ++ [result blockcountInfo])%list
    /\ writes (trace (final x))
       = (writes (trace w)
          ++ if needs_endorsement rec (accountName cfg)
             then [(accountName cfg, result blockcountInfo, result blockhashInfo)]
             else [])%list
    /\ sleeps (trace (final x)) = sleeps (trace w).
Proof.
  intros env t cfg w bc bh rec Hs Hg Hbc Hbh Hrec x. subst x.
  rewrite exec_endorseTick_cycle by assumption. rewrite Hbc. cbn zeta. rewrite Hbh.
  rewrite exec_checkAndSubmitEndorsement. cbn zeta. rewrite Hrec.
  assert (Hw : forall r w0,
             writes (trace (submit_world (accountName cfg) (result bc) (result bh) r w0))
             = (writes (trace w0) ++ [(accountName cfg, result bc, result bh)])%list).
  { intros r w0. unfold submit_world; cbn [trace].
    rewrite !writes_app, writes_submit_log. cbn. rewrite ?app_nil_r. reflexivity. }
  assert (Hsl : forall r w0,
             sleeps (trace (submit_world (accountName cfg) (result bc) (result bh) r w0))
             = sleeps (trace w0)).
  { intros r w0.
    destruct (scan_event_projections (accountName cfg) 0 (result bc) (result bc) _
                (scan_event_submit_log (accountName cfg) 0 (result bc) (result bh) r))
      as [Hq _].
    unfold submit_world; cbn [trace]. rewrite !sleeps_app, Hq. cbn.
    rewrite ?app_nil_r. reflexivity. }
  destruct rec as [r|]; cbn [needs_endorsement]; [destruct (pending r (accountName cfg))|];
    unfold end_of_endorse, outcome, final, release; cbn [fst snd globals trace];
    rewrite ?reconciled_submit_world, ?Hw, ?Hsl;
    unfold call_world, endorse_started, log_world; cbn [trace globals];
    rewrite ?reconciled_app, ?writes_app, ?sleeps_app; cbn;
    rewrite ?app_nil_r; repeat split; reflexivity.
Qed.

Lemma X9_regular_tick_witness :
  let x := exec (network record_pending accepted) 0 (endorseTick cfg_me)
                world_after_503 in
  outcome x = Returned tt
  /\ endorseRunning (globals (final x)) = false
  /\ reconciled (trace (final x)) = [510]
  /\ writes (trace (final x)) = [("me", 510, "h")]
  /\ sleeps (trace (final x)) = [].
Proof.
  apply (X9_regular_tick (network record_pending accepted) 0%nat cfg_me
           world_after_503 (mkRpc 510) (mkRpc "h") (Some (mkEndorsement [me] []))
           eq_refl eq_refl eq_refl eq_refl eq_refl).
Defined.

(* ================================================================== *)
(** ** Back-off *)

Lemma end_of_endorse_backoff env cfg x :
  let y := end_of_endorse env cfg x in
  exists l,
    sleeps (trace (final y)) = (sleeps (trace (final x)) ++ l)%list
    /\ (l = [] \/ l = [RETRY_INTERVAL_MS cfg])
    /\ task_errors (trace (final y))
       = (task_errors (trace (final x)) + List.length l)%nat
    /\ endorseRunning (globals (final y)) = false
    /\ (sleep_resolves env -> outcome y = Returned tt).
Proof.
  destruct x as [[[u|e] w] t]; cbn zeta; unfold end_of_endorse.
  - exists []. unfold final, outcome; cbn. rewrite app_nil_r.
    repeat split; auto.
  - exists [RETRY_INTERVAL_MS cfg].
    assert (Hs : sleeps (trace (call_world (Sleep (RETRY_INTERVAL_MS cfg))
                                  (log_world Err (EndorseTaskError e) w)))
                 = (sleeps (trace w) ++ [RETRY_INTERVAL_MS cfg])%list).
    { unfold call_world, log_world; cbn [trace]. rewrite !sleeps_app. cbn.
      rewrite app_nil_r. reflexivity. }
    assert (He : task_errors (trace (call_world (Sleep (RETRY_INTERVAL_MS cfg))
                                  (log_world Err (EndorseTaskError e) w)))
                 = (task_errors (trace w) + 1)%nat).
    { unfold call_world, log_world; cbn [trace]. rewrite !task_errors_app. cbn. lia. }
    destruct (env t (Sleep (RETRY_INTERVAL_MS cfg))) as [u|e'] eqn:Hsl;
      unfold final, outcome, release; cbn [fst snd trace globals];
      (split; [exact Hs|]); (split; [auto|]); (split; [exact He|]);
      (split; [reflexivity|]); intro Hr; [reflexivity|].
    rewrite Hr in Hsl. discriminate Hsl.
Qed.

Lemma end_of_endorseCheck_backoff env cfg x :
  let y := end_of_endorseCheck env cfg x in
  exists l,
    sleeps (trace (final y)) = (sleeps (trace (final x)) ++ l)%list
    /\ (l = [] \/ l = [RETRY_INTERVAL_MS cfg])
    /\ task_errors (trace (final y))
       = (task_errors (trace (final x)) + List.length l)%nat
    /\ endorseCheckRunning (globals (final y)) = false
    /\ (sleep_resolves env -> outcome y = Returned tt).
Proof.
  destruct x as [[[u|e] w] t]; cbn zeta; unfold end_of_endorseCheck.
  - exists []. unfold final, outcome; cbn. rewrite app_nil_r.
    repeat split; auto.
  - exists [RETRY_INTERVAL_MS cfg].
    assert (Hs : sleeps (trace (call_world (Sleep (RETRY_INTERVAL_MS cfg))
                                  (log_world Err (EndorseCheckTaskError e) w)))
                 = (sleeps (trace w) ++ [RETRY_INTERVAL_MS cfg])%list).
    { unfold call_world, log_world; cbn [trace]. rewrite !sleeps_app. cbn.
      rewrite app_nil_r. reflexivity. }
    assert (He : task_errors (trace (call_world (Sleep (RETRY_INTERVAL_MS cfg))
                                  (log_world Err (EndorseCheckTaskError e) w)))
                 = (task_errors (trace w) + 1)%nat).
    { unfold call_world, log_world; cbn [trace]. rewrite !task_errors_app. cbn. lia. }
    destruct (env t (Sleep (RETRY_INTERVAL_MS cfg))) as [u|e'] eqn:Hsl;
      unfold final, outcome, releaseCheck; cbn [fst snd trace globals];
      (split; [exact Hs|]); (split; [auto|]); (split; [exact He|]);
      (split; [reflexivity|]); intro Hr; [reflexivity|].
    rewrite Hr in Hsl. discriminate Hsl.
Qed.

(** The events of a cycle's body hold no sleep and no task error. *)
Lemma quiet_extension a tip lo hi tr new :
  Forall (scan_event a tip lo hi) new ->
  sleeps (tr ++ new) = sleeps tr /\ task_errors (tr ++ new) = task_errors tr.
Proof.
  intro H. destruct (scan_event_projections a tip lo hi new H) as [Hs _].
  rewrite sleeps_app, task_errors_app, Hs, (scan_event_no_task_error _ _ _ _ _ H).
  rewrite app_nil_r. split; [reflexivity | lia].
Qed.

(** X10: back-off.  Run alone from an open gate and a free guard, a tick
    of either job sleeps at most once, for [RETRY_INTERVAL_MS], and exactly
    when it has logged its task error; it leaves its guard false; and it
    returns normally whenever the sleep resolves, whatever the other
    collaborators do. *)
Theorem X10_backoff :
  forall env t cfg w,
    startupStatus (globals w) = true ->
    (endorseRunning (globals w) = false ->
     let x := exec env t (endorseTick cfg) w in
     exists l,
       sleeps (trace (final x)) = (sleeps (trace w) ++ l)%list
       /\ (l = [] \/ l = [RETRY_INTERVAL_MS cfg])
       /\ task_errors (trace (final x)) = (task_errors (trace w) + List.length l)%nat
       /\ endorseRunning (globals (final x)) = false
       /\ (sleep_resolves env -> outcome x = Returned tt))
    /\ (endorseCheckRunning (globals w) = false ->
        let x := exec env t (endorseCheckTick cfg) w in
        exists l,
          sleeps (trace (final x)) = (sleeps (trace w) ++ l)%list
          /\ (l = [] \/ l = [RETRY_INTERVAL_MS cfg])
          /\ task_errors (trace (final x)) = (task_errors (trace w) + List.length l)%nat
          /\ endorseCheckRunning (globals (final x)) = false
          /\ (sleep_resolves env -> outcome x = Returned tt)).
Proof.
  intros env t cfg w Hs. split; intros Hg x; subst x.
  - rewrite exec_endorseTick_cycle by assumption.
    match goal with
    | |- context [end_of_endorse env cfg ?b] =>
        set (B := b);
        assert (HB : sleeps (trace (final B)) = sleeps (trace w)
                     /\ task_errors (trace (final B)) = task_errors (trace w))
    end.
    { subst B. destruct (env t GetBlockCount) as [bc|e]; cbn zeta.
      - destruct (env (S t) (GetBlockHash (result bc))) as [bh|e].
        + destruct (trace_checkAndSubmitEndorsement env (S (S t)) (accountName cfg)
                      0 (result bc) (result bh)
                      (call_world (GetBlockHash (result bc))
                         (call_world GetBlockCount (endorse_started w))))
            as [new [-> Hnew]].
          destruct (quiet_extension _ _ _ _
                      (trace (call_world (GetBlockHash (result bc))
                                (call_world GetBlockCount (endorse_started w))))
                      new Hnew) as [-> ->].
          unfold call_world, endorse_started, log_world; cbn [trace].
          rewrite !sleeps_app, !task_errors_app. cbn.
          rewrite !app_nil_r. split; [reflexivity | lia].
        + unfold final, call_world, endorse_started, log_world; cbn [fst snd trace].
          rewrite !sleeps_app, !task_errors_app. cbn.
          rewrite !app_nil_r. split; [reflexivity | lia].
      - unfold final, call_world, endorse_started, log_world; cbn [fst snd trace].
        rewrite !sleeps_app, !task_errors_app. cbn.
        rewrite !app_nil_r. split; [reflexivity | lia]. }
    destruct HB as [HB1 HB2].
    destruct (end_of_endorse_backoff env cfg B) as [l Hl]. cbn zeta in Hl.
    rewrite HB1, HB2 in Hl. exists l. exact Hl.
  - rewrite exec_endorseCheckTick_cycle by assumption.
    match goal with
    | |- context [end_of_endorseCheck env cfg ?b] =>
        set (B := b);
        assert (HB : sleeps (trace (final B)) = sleeps (trace w)
                     /\ task_errors (trace (final B)) = task_errors (trace w))
    end.
    { subst B. destruct (env t GetChainstate) as [[cs|]|e]; cbn zeta.
      - destruct (env (S t) GetBlockCount) as [bc|e].
        + unfold scan.
          destruct (trace_scan_loop env (accountName cfg) (result bc)
                      (scan_fuel (irreversible_height cs + 1) (result bc))
                      (S (S t)) (irreversible_height cs + 1)
                      (call_world GetBlockCount
                         (call_world GetChainstate (endorseCheck_started w))))
            as [new [-> Hnew]].
          destruct (quiet_extension _ _ _ _
                      (trace (call_world GetBlockCount
                                (call_world GetChainstate (endorseCheck_started w))))
                      new Hnew) as [-> ->].
          unfold call_world, endorseCheck_started, log_world; cbn [trace].
          rewrite !sleeps_app, !task_errors_app. cbn.
          rewrite !app_nil_r. split; [reflexivity | lia].
        + unfold final, call_world, endorseCheck_started, log_world; cbn [fst snd trace].
          rewrite !sleeps_app, !task_errors_app. cbn.
          rewrite !app_nil_r. split; [reflexivity | lia].
      - unfold final, call_world, endorseCheck_started, log_world; cbn [fst snd trace].
        rewrite !sleeps_app, !task_errors_app. cbn.
        rewrite !app_nil_r. split; [reflexivity | lia].
      - unfold final, call_world, endorseCheck_started, log_world; cbn [fst snd trace].
        rewrite !sleeps_app, !task_errors_app. cbn.
        rewrite !app_nil_r. split; [reflexivity | lia]. }
    destruct HB as [HB1 HB2].
    destruct (end_of_endorseCheck_backoff env cfg B) as [l Hl]. cbn zeta in Hl.
    rewrite HB1, HB2 in Hl. exists l. exact Hl.
Qed.

Lemma X10_backoff_witness :
  let env := network_without_block 510 record_pending accepted in
  let x := exec env 0 (endorseTick cfg_me) world_after_503 in
  exists l,
    sleeps (trace (final x)) = (sleeps (trace world_after_503) ++ l)%list
    /\ (l = [] \/ l = [RETRY_INTERVAL_MS cfg_me])
    /\ task_errors (trace (final x))
       = (task_errors (trace world_after_503) + List.length l)%nat
    /\ endorseRunning (globals (final x)) = false
    /\ (sleep_resolves env -> outcome x = Returned tt).
Proof.
  exact (proj1 (X10_backoff (network_without_block 510 record_pending accepted)
                  0%nat cfg_me world_after_503 eq_refl) eq_refl).
Defined.

(* ================================================================== *)
(** ** A tick of the catch-up job, run alone *)

(** X11: when [getChainstate] answers nothing, a catch-up cycle logs "Get
    chainstate error." and ends there: the block count is not fetched, no
    height is reconciled, there is no back-off sleep, the guard is released
    and no other global changes. *)
Theorem X11_catch_up_without_chainstate :
  forall (env : Env) t cfg w,
    startupStatus (globals w) = true ->
    endorseCheckRunning (globals w) = false ->
    env t GetChainstate = Returned None ->
    exec env t (endorseCheckTick cfg) w
    = (Returned tt,
       mkWorld (globals w)
               (trace w ++ [EvLog Info EndorseCheckTaskRunning;
                            EvCall GetChainstate;
                            EvLog Err GetChainstateError]),
       S t).
Proof.
  intros env t cfg w Hs Hg Hc.
  rewrite exec_endorseCheckTick_cycle by assumption. rewrite Hc.
  unfold end_of_endorseCheck, releaseCheck, log_world, call_world,
    endorseCheck_started; cbn [globals trace].
  destruct w as [[er ecr ss leh lsh] tr]. cbn in Hg |- *. subst ecr.
  rewrite <- !app_assoc. reflexivity.
Qed.

Lemma X11_catch_up_without_chainstate_witness :
  let env := env_of (mkOracle (fun _ => Returned true) (fun _ => Returned None)
                              record_pending (fun _ => Returned (mkRpc 510))
                              (fun _ _ => Returned (mkRpc "h")) accepted) in
  exec env 0 (endorseCheckTick cfg_me) world_after_503
  = (Returned tt,
     mkWorld (globals world_after_503)
             [EvLog Info EndorseCheckTaskRunning; EvCall GetChainstate;
              EvLog Err GetChainstateError],
     1%nat).
Proof.
  exact (X11_catch_up_without_chainstate
           (env_of (mkOracle (fun _ => Returned true) (fun _ => Returned None)
                             record_pending (fun _ => Returned (mkRpc 510))
                             (fun _ _ => Returned (mkRpc "h")) accepted))
           0%nat cfg_me world_after_503 eq_refl eq_refl eq_refl).
Defined.



(* ================================================================== *)
(** ** The startup gate *)

(** X13: while the network has not launched, a tick of either job does
    nothing but poll.  When [getStartupStatus] answers false the tick logs
    that the network has not launched and returns: no other call is made
    and no global changes, the guards included.  When the poll fails the
    error leaves the handler uncaught, the poll being outside the [try]. *)
Theorem X13_gate_closed :
  forall (env : Env) t cfg w,
    startupStatus (globals w) = false ->
    (env t GetStartupStatus = Returned false ->
     let r := (Returned tt,
               mkWorld (globals w)
                       (trace w ++ [EvCall GetStartupStatus; EvLog Info NotLaunched]),
               S t) in
     exec env t (endorseTick cfg) w = r
     /\ exec env t (endorseCheckTick cfg) w = r)
    /\ (forall e,
           env t GetStartupStatus = Threw e ->
           let r := (Threw e,
                     mkWorld (globals w) (trace w ++ [EvCall GetStartupStatus]),
                     S t) in
           exec env t (endorseTick cfg) w = r
           /\ exec env t (endorseCheckTick cfg) w = r).
Proof.
  intros env t cfg w Hs. split.
  - intros Hp. cbn zeta. unfold endorseTick, endorseCheckTick.
    rewrite !exec_startup_gate, Hs, Hp.
    unfold log_world, polled; cbn [globals trace]. rewrite <- app_assoc.
    destruct w as [[er ecr ss leh lsh] tr]. cbn in Hs |- *. subst ss.
    split; reflexivity.
  - intros e Hp. cbn zeta. unfold endorseTick, endorseCheckTick.
    rewrite !exec_startup_gate, Hs, Hp. split; reflexivity.
Qed.

Lemma X13_gate_closed_witness :
  let env := env_of (mkOracle (fun _ => Returned false)
                              (fun _ => Returned (Some (mkChainstate 500)))
                              record_pending (fun _ => Returned (mkRpc 510))
                              (fun _ _ => Returned (mkRpc "h")) accepted) in
  exec env 0 (endorseTick cfg_me) initial_world
  = (Returned tt,
     mkWorld initial_globals [EvCall GetStartupStatus; EvLog Info NotLaunched],
     1%nat)
  /\ exec env 0 (endorseCheckTick cfg_me) initial_world
     = (Returned tt,
        mkWorld initial_globals [EvCall GetStartupStatus; EvLog Info NotLaunched],
        1%nat).
Proof.
  exact (proj1 (X13_gate_closed
                  (env_of (mkOracle (fun _ => Returned false)
                                    (fun _ => Returned (Some (mkChainstate 500)))
                                    record_pending (fun _ => Returned (mkRpc 510))
                                    (fun _ _ => Returned (mkRpc "h")) accepted))
                  0%nat cfg_me initial_world eq_refl) eq_refl).
Defined.

Lemma startupStatus_checkAndSubmitEndorsement env t a h hash w :
  startupStatus (globals (final (exec env t (checkAndSubmitEndorsement a h hash) w)))
  = startupStatus (globals w).
Proof.
  rewrite exec_checkAndSubmitEndorsement. cbn zeta.
  destruct (env t (GetEndorsementByBlockId h hash)) as [[r|]|e];
    [destruct (pending r a)| |]; unfold final, submit_world, call_world;
    cbn [fst snd globals]; try reflexivity;
    destruct (write_succeeds _); reflexivity.
Qed.

Lemma startupStatus_scan_loop env a tip fuel :
  forall t i w,
    startupStatus (globals (final (exec env t (scan_loop fuel a tip i) w)))
    = startupStatus (globals w).
Proof.
  induction fuel as [|fuel IH]; intros t i w; [reflexivity|].
  rewrite exec_scan_loop_S. destruct (i <=? tip); [|reflexivity].
  destruct (env t (GetBlockHash i)) as [bh|e]; [|reflexivity].
  pose proof (startupStatus_checkAndSubmitEndorsement env (S t) a i (result bh)
                (log_world Info (CheckEndorsement i tip)
                           (call_world (GetBlockHash i) w))) as H1.
  destruct (exec env (S t) (checkAndSubmitEndorsement a i (result bh)) _)
    as [[[u|e] w2] t2]; unfold final in H1; cbn [fst snd] in H1.
  - rewrite IH. exact H1.
  - exact H1.
Qed.

Lemma end_of_endorse_latch env cfg x :
  let y := end_of_endorse env cfg x in
  startupStatus (globals (final y)) = startupStatus (globals (final x))
  /\ gate_polls (trace (final y)) = gate_polls (trace (final x)).
Proof.
  destruct x as [[[u|e] w] t]; cbn zeta; unfold end_of_endorse.
  - split; reflexivity.
  - destruct (env t (Sleep (RETRY_INTERVAL_MS cfg)));
      unfold final, release, call_world, log_world; cbn [fst snd globals trace];
      rewrite !gate_polls_app; cbn; split; (reflexivity || lia).
Qed.

Lemma end_of_endorseCheck_latch env cfg x :
  let y := end_of_endorseCheck env cfg x in
  startupStatus (globals (final y)) = startupStatus (globals (final x))
  /\ gate_polls (trace (final y)) = gate_polls (trace (final x)).
Proof.
  destruct x as [[[u|e] w] t]; cbn zeta; unfold end_of_endorseCheck.
  - split; reflexivity.
  - destruct (env t (Sleep (RETRY_INTERVAL_MS cfg)));
      unfold final, releaseCheck, call_world, log_world; cbn [fst snd globals trace];
      rewrite !gate_polls_app; cbn; split; (reflexivity || lia).
Qed.

Lemma gate_polls_extension a tip lo hi tr new :
  Forall (scan_event a tip lo hi) new -> gate_polls (tr ++ new) = gate_polls tr.
Proof.
  intro H. destruct (scan_event_projections a tip lo hi new H) as [_ [Hg _]].
  rewrite gate_polls_app, Hg. lia.
Qed.

(** X14: the startup latch.  Run alone on globals where [startupStatus] is
    already true, a tick of either job never polls [getStartupStatus] and
    leaves [startupStatus] true, whether its guard is held or free and
    however its cycle ends. *)
Theorem X14_startup_latch :
  forall env t cfg w,
    startupStatus (globals w) = true ->
    let x := exec env t (endorseTick cfg) w in
    let y := exec env t (endorseCheckTick cfg) w in
    startupStatus (globals (final x)) = true
    /\ gate_polls (trace (final x)) = gate_polls (trace w)
    /\ startupStatus (globals (final y)) = true
    /\ gate_polls (trace (final y)) = gate_polls (trace w).
Proof.
  intros env t cfg w Hs. cbn zeta.
  assert (Hx : startupStatus (globals (final (exec env t (endorseTick cfg) w))) = true
               /\ gate_polls (trace (final (exec env t (endorseTick cfg) w)))
                  = gate_polls (trace w)).
  { destruct (endorseRunning (globals w)) eqn:Hg.
    - unfold exec. rewrite endorseTick_guard_held by assumption.
      unfold final; cbn [run fst snd globals trace].
      rewrite gate_polls_app. cbn. split; [exact Hs | lia].
    - rewrite exec_endorseTick_cycle by assumption.
      match goal with
      | |- context [end_of_endorse env cfg ?b] => set (B := b)
      end.
      destruct (end_of_endorse_latch env cfg B) as [-> ->].
      subst B. destruct (env t GetBlockCount) as [bc|e]; cbn zeta.
      + destruct (env (S t) (GetBlockHash (result bc))) as [bh|e].
        * rewrite startupStatus_checkAndSubmitEndorsement.
          destruct (trace_checkAndSubmitEndorsement env (S (S t)) (accountName cfg)
                      0 (result bc) (result bh)
                      (call_world (GetBlockHash (result bc))
                         (call_world GetBlockCount (endorse_started w))))
            as [new [-> Hnew]].
          rewrite (gate_polls_extension _ _ _ _ _ new Hnew).
          unfold call_world, endorse_started, log_world; cbn [globals trace].
          rewrite !gate_polls_app. cbn. split; [exact Hs | lia].
        * unfold final, call_world, endorse_started, log_world;
            cbn [fst snd globals trace].
          rewrite !gate_polls_app. cbn. split; [exact Hs | lia].
      + unfold final, call_world, endorse_started, log_world;
          cbn [fst snd globals trace].
        rewrite !gate_polls_app. cbn. split; [exact Hs | lia]. }
  destruct Hx as [Hx1 Hx2]. split; [exact Hx1|]. split; [exact Hx2|].
  destruct (endorseCheckRunning (globals w)) eqn:Hg.
  - unfold exec. rewrite endorseCheckTick_guard_held by assumption.
    unfold final; cbn [run fst snd]. split; [exact Hs | reflexivity].
  - rewrite exec_endorseCheckTick_cycle by assumption.
    match goal with
    | |- context [end_of_endorseCheck env cfg ?b] => set (B := b)
    end.
    destruct (end_of_endorseCheck_latch env cfg B) as [-> ->].
    subst B. destruct (env t GetChainstate) as [[cs|]|e]; cbn zeta.
    + destruct (env (S t) GetBlockCount) as [bc|e].
      * unfold scan. rewrite startupStatus_scan_loop.
        destruct (trace_scan_loop env (accountName cfg) (result bc)
                    (scan_fuel (irreversible_height cs + 1) (result bc))
                    (S (S t)) (irreversible_height cs + 1)
                    (call_world GetBlockCount
                       (call_world GetChainstate (endorseCheck_started w))))
          as [new [-> Hnew]].
        rewrite (gate_polls_extension _ _ _ _ _ new Hnew).
        unfold call_world, endorseCheck_started, log_world; cbn [globals trace].
        rewrite !gate_polls_app. cbn. split; [exact Hs | lia].
      * unfold final, call_world, endorseCheck_started, log_world;
          cbn [fst snd globals trace].
        rewrite !gate_polls_app. cbn. split; [exact Hs | lia].
    + unfold final, call_world, endorseCheck_started, log_world;
        cbn [fst snd globals trace].
      rewrite !gate_polls_app. cbn. split; [exact Hs | lia].
    + unfold final, call_world, endorseCheck_started, log_world;
        cbn [fst snd globals trace].
      rewrite !gate_polls_app. cbn. split; [exact Hs | lia].
Qed.

Lemma X14_startup_latch_witness :
  let x := exec (network record_pending accepted) 0 (endorseTick cfg_me)
                world_after_503 in
  let y := exec (network record_pending accepted) 0 (endorseCheckTick cfg_me)
                world_after_503 in
  startupStatus (globals (final x)) = true
  /\ gate_polls (trace (final x)) = gate_polls (trace world_after_503)
  /\ startupStatus (globals (final y)) = true
  /\ gate_polls (trace (final y)) = gate_polls (trace world_after_503).
Proof.
  exact (X14_startup_latch (network record_pending accepted) 0%nat cfg_me
           world_after_503 eq_refl).
Defined.

(* ================================================================== *)
(** ** The guards *)

(** X15: whatever the order in which the two cron jobs fire and their
    pending calls settle, the catch-up guard tells the truth: while
    [endorseCheckRunning] is false no suspended handler is inside a
    catch-up cycle, and while it is true exactly one is, every other
    suspended handler being outside. *)
Theorem X15_catch_up_guard_under_every_schedule :
  forall cfg actions,
    Forall (legit cfg) actions ->
    let s := schedule initial_system actions in
    (endorseCheckRunning (globals (world s)) = false ->
     Forall task_outside (pool s))
    /\ (endorseCheckRunning (globals (world s)) = true ->
        exists l1 task l2,
          pool s = (l1 ++ task :: l2)%list
          /\ task_in_cycle task
          /\ Forall task_outside (l1 ++ l2)).
Proof.
  intros cfg actions Hl s.
  pose proof (catch_up_cycles_never_overlap cfg actions Hl) as H.
  fold s in H. unfold guard_consistent, guard in H.
  split; intro Hg; rewrite Hg in H.
  - apply one_cycle_false, H.
  - apply one_cycle_true, H.
Qed.

Lemma X15_catch_up_guard_under_every_schedule_witness :
  let s := schedule initial_system (three_ticks (endorseCheckTick cfg_me)) in
  exists l1 task l2,
    pool s = (l1 ++ task :: l2)%list
    /\ task_in_cycle task
    /\ Forall task_outside (l1 ++ l2).
Proof.
  apply (proj2 (X15_catch_up_guard_under_every_schedule cfg_me
                  (three_ticks (endorseCheckTick cfg_me))
                  ltac:(repeat constructor))).
  reflexivity.
Defined.

(** X16: a tick that finds the gate open and the guard of its job held
    finishes at once, without awaiting anything.  For the catch-up job it
    changes nothing at all.  For the regular job it logs that it skips the
    round and, its test being inside the [try], leaves through the
    [finally]: [endorseRunning] is false afterwards. *)
Theorem X16_tick_on_held_guard :
  forall cfg w,
    startupStatus (globals w) = true ->
    (endorseCheckRunning (globals w) = true ->
     endorseCheckTick cfg w = Done (Returned tt) w)
    /\ (endorseRunning (globals w) = true ->
        endorseTick cfg w
        = Done (Returned tt)
               (mkWorld (set_endorseRunning false (globals w))
                        (trace w ++ [EvLog Info EndorseSkipping]))).
Proof.
  intros cfg w Hs. split; intro Hg.
  - apply endorseCheckTick_guard_held; assumption.
  - apply endorseTick_guard_held; assumption.
Qed.

Lemma X16_tick_on_held_guard_witness :
  let w := mkWorld (mkRunState true true true 0 0) [] in
  endorseCheckTick cfg_me w = Done (Returned tt) w
  /\ endorseTick cfg_me w
     = Done (Returned tt)
            (mkWorld (mkRunState false true true 0 0) [EvLog Info EndorseSkipping]).
Proof.
  cbn zeta. split.
  - apply (proj1 (X16_tick_on_held_guard cfg_me
                    (mkWorld (mkRunState true true true 0 0) []) eq_refl)).
    reflexivity.
  - apply (proj2 (X16_tick_on_held_guard cfg_me
                    (mkWorld (mkRunState true true true 0 0) []) eq_refl)).
    reflexivity.
Defined.

(** Two ticks polling the gate at once: the later answer wins, and an
    answer "not launched" that arrives after "launched" takes the latch
    back. *)
Lemma startup_latch_can_reopen :
  let not_yet : forall c : Call, Result (Resp c) :=
    env_of (mkOracle (fun _ => Returned false)
                     (fun _ => Returned None) record_absent
                     (fun _ => Returned (mkRpc 510))
                     (fun _ _ => Returned (mkRpc "h")) accepted) 0%nat in
  let s1 := schedule initial_system
              [Fire (endorseTick cfg_me); Fire (endorseCheckTick cfg_me);
               Settle 0 launched] in
  let s2 := step s1 (Settle 0 not_yet) in
  startupStatus (globals (world s1)) = true
  /\ startupStatus (globals (world s2)) = false.
Proof. cbn zeta. split; vm_compute; reflexivity. Qed.

(* ================================================================== *)
(** ** Startup *)

Module StartupFacts.
Import Startup.
Local Open Scope list_scope.

Lemma prompts_app l1 l2 : prompts (l1 ++ l2) = (prompts l1 + prompts l2)%nat.
Proof. unfold prompts. rewrite filter_app. apply length_app. Qed.

Lemma keystore_calls_app l1 l2 :
  keystore_calls (l1 ++ l2) = keystore_calls l1 ++ keystore_calls l2.
Proof. unfold keystore_calls. apply flat_map_app. Qed.

Lemma warnings_app l1 l2 : warnings (l1 ++ l2) = warnings l1 ++ warnings l2.
Proof. unfold warnings. apply flat_map_app. Qed.

Lemma scheduled_jobs_app l1 l2 :
  scheduled_jobs (l1 ++ l2) = scheduled_jobs l1 ++ scheduled_jobs l2.
Proof. unfold scheduled_jobs. apply flat_map_app. Qed.

Lemma listening_app l1 l2 : listening (l1 ++ l2) = listening l1 || listening l2.
Proof. unfold listening. apply existsb_app. Qed.

(** The rounds of the loop spent on wrong passwords. *)
Lemma password_loop_wrong c file m :
  forall fuel n done,
    (forall j, (j < m)%nat ->
       exists password e,
         getInputPassword c (n + j) = Returned password
         /\ trim c password <> "q"
         /\ getAccountInfo c (n + j) file password = Threw e) ->
    (m <= fuel)%nat ->
    exists mid,
      password_loop c file fuel n n done
      = password_loop c file (fuel - m) (n + m) (n + m) (done ++ mid)
      /\ prompts mid = m
      /\ List.length (keystore_calls mid) = m
      /\ List.length (warnings mid) = m.
Proof.
  induction m as [|m IH]; intros fuel n done Hw Hf.
  - exists []. rewrite app_nil_r, Nat.sub_0_r, Nat.add_0_r. repeat split.
  - destruct fuel as [|fuel]; [lia|].
    destruct (Hw 0%nat ltac:(lia)) as [p [e [Hp [Hq Ha]]]].
    rewrite Nat.add_0_r in Hp, Ha.
    cbn [password_loop]. rewrite Hp.
    destruct (String.eqb_spec (trim c p) "q") as [Heq|_]; [contradiction|].
    rewrite Ha.
    destruct (IH fuel (S n) (done ++ [Prompt; GetAccountInfo file p; Warn e]))
      as [mid [Heq [H1 [H2 H3]]]].
    + intros j Hj. destruct (Hw (S j) ltac:(lia)) as [p' [e' H']].
      exists p', e'. replace (S n + j)%nat with (n + S j)%nat by lia. exact H'.
    + lia.
    + exists ([Prompt; GetAccountInfo file p; Warn e] ++ mid).
      rewrite Heq. replace (S n + m)%nat with (n + S m)%nat by lia.
      rewrite <- app_assoc. cbn [Nat.sub].
      rewrite prompts_app, keystore_calls_app, warnings_app, !length_app.
      cbn. repeat split; lia.
Qed.

(** X17: with a password in the configuration, [main] never prompts.  It
    calls [getAccountInfo] once, with the configured password trimmed; when
    that call fails, [main] throws the error without another attempt. *)
Theorem X17_main_with_configured_password :
  forall c file fuel password,
    getConfigPassword c = Some password ->
    password <> "" ->
    envCheck c file = Returned tt ->
    let r := main c file fuel in
    prompts (snd r) = 0%nat
    /\ keystore_calls (snd r) = [(file, trim c password)]
    /\ fst r <> Prompting
    /\ (forall e,
           getAccountInfo c 0 file (trim c password) = Threw e ->
           r = (Failed e, [EnvCheck file; GetAccountInfo file (trim c password)])).
Proof.
  intros c file fuel p Hp Hne He. cbn zeta. unfold main. rewrite He.
  unfold configured. rewrite Hp.
  destruct p as [|ch p]; [congruence|]. cbn [truthy_string].
  destruct (getAccountInfo c 0 file (trim c (String ch p))) as [info|e].
  - destruct (initialize c info); [destruct (checkClient c)|];
      cbn [fst snd]; rewrite ?prompts_app, ?keystore_calls_app;
      repeat split; try discriminate; reflexivity.
  - cbn [fst snd]. repeat split; try discriminate.
    intros e' He'. injection He' as <-. reflexivity.
Qed.

Lemma X17_main_with_configured_password_witness :
  let r := main (operator (Some "  s3cret ") [] "s3cret") "keystore.json" 0 in
  prompts (snd r) = 0%nat
  /\ keystore_calls (snd r) = [("keystore.json", "s3cret")]
  /\ fst r <> Prompting.
Proof.
  destruct (X17_main_with_configured_password
              (operator (Some "  s3cret ") [] "s3cret") "keystore.json" 0%nat
              "  s3cret " eq_refl ltac:(discriminate) eq_refl)
    as [H1 [H2 [H3 _]]].
  cbn zeta. split; [exact H1 | split; [exact H2 | exact H3]].
Defined.

(** X18: without a configured password, [main] asks until the keystore
    opens.  After [m] wrong passwords, each answered by a warning, the next
    one typed is handed to [getAccountInfo] as typed, untrimmed, and when
    it opens the keystore the loop ends with that account:
    [getAccountInfo] has been called [m + 1] times. *)
Theorem X18_main_prompts_until_unlocked :
  forall c file fuel m password accountInfo,
    configured (getConfigPassword c) = None ->
    envCheck c file = Returned tt ->
    wrong_passwords c file m ->
    getInputPassword c m = Returned password ->
    trim c password <> "q" ->
    getAccountInfo c m file password = Returned accountInfo ->
    initialize c accountInfo = Returned tt ->
    checkClient c = Returned tt ->
    (m < fuel)%nat ->
    let r := main c file fuel in
    fst r = Ok accountInfo
    /\ prompts (snd r) = S m
    /\ List.length (keystore_calls (snd r)) = S m
    /\ last (keystore_calls (snd r)) (file, "") = (file, password)
    /\ List.length (warnings (snd r)) = m.
Proof.
  intros c file fuel m p info Hc He Hw Hp Hq Ha Hi Hcc Hf. cbn zeta.
  unfold main. rewrite He, Hc.
  destruct (password_loop_wrong c file m fuel 0 [EnvCheck file]) as [mid [Heq [H1 [H2 H3]]]].
  - intros j Hj. apply (Hw j Hj).
  - lia.
  - rewrite Heq. cbn [Nat.add].
    destruct (fuel - m)%nat as [|fuel'] eqn:Hfuel; [lia|].
    cbn [password_loop]. rewrite Hp.
    destruct (String.eqb_spec (trim c p) "q") as [Heqq|_]; [contradiction|].
    rewrite Ha, Hi, Hcc. cbn [fst snd].
    rewrite !prompts_app, !keystore_calls_app, !warnings_app, !length_app, H1, H2, H3.
    cbn. rewrite app_nil_r.
    split; [reflexivity|]. split; [lia|]. split; [lia|]. split; [|lia].
    apply last_last.
Qed.

Lemma X18_main_prompts_until_unlocked_witness :
  let r := main (operator None ["guess"; " s3cret"; "s3cret"] "s3cret")
                "keystore.json" 5 in
  fst r = Ok (mkAccountInfo "me")
  /\ prompts (snd r) = 3%nat
  /\ List.length (keystore_calls (snd r)) = 3%nat
  /\ last (keystore_calls (snd r)) ("keystore.json", "") = ("keystore.json", "s3cret")
  /\ List.length (warnings (snd r)) = 2%nat.
Proof.
  apply (X18_main_prompts_until_unlocked
           (operator None ["guess"; " s3cret"; "s3cret"] "s3cret")
           "keystore.json" 5%nat 2%nat "s3cret" (mkAccountInfo "me")
           eq_refl eq_refl).
  - intros j Hj. destruct j as [|[|j]]; [| |lia].
    + exists "guess", (mkError (Some "invalid password")).
      repeat split. discriminate.
    + exists " s3cret", (mkError (Some "invalid password")).
      repeat split. discriminate.
  - reflexivity.
  - discriminate.
  - reflexivity.
  - reflexivity.
  - reflexivity.
  - lia.
Defined.

(** The password loop schedules nothing and opens no port. *)
Lemma password_loop_quiet c file fuel :
  forall n k done,
    let r := password_loop c file fuel n k done in
    scheduled_jobs (snd r) = scheduled_jobs done
    /\ listening (snd r) = listening done.
Proof.
  induction fuel as [|fuel IH]; intros n k done; cbn zeta.
  - split; reflexivity.
  - cbn [password_loop]. destruct (getInputPassword c n) as [p|e].
    + destruct (trim c p =? "q")%string.
      * cbn [snd]. rewrite scheduled_jobs_app, listening_app. cbn.
        rewrite app_nil_r, orb_false_r. split; reflexivity.
      * destruct (getAccountInfo c k file p) as [info|e].
        -- cbn [snd]. rewrite scheduled_jobs_app, listening_app. cbn.
           rewrite app_nil_r, orb_false_r. split; reflexivity.
        -- specialize (IH (S n) (S k) (done ++ [Prompt; GetAccountInfo file p; Warn e])).
           cbn zeta in IH. destruct IH as [-> ->].
           rewrite scheduled_jobs_app, listening_app. cbn.
           rewrite app_nil_r, orb_false_r. split; reflexivity.
    + specialize (IH (S n) k (done ++ [Prompt; Warn e])).
      cbn zeta in IH. destruct IH as [-> ->].
      rewrite scheduled_jobs_app, listening_app. cbn.
      rewrite app_nil_r, orb_false_r. split; reflexivity.
Qed.

Lemma main_quiet c file fuel :
  scheduled_jobs (snd (main c file fuel)) = []
  /\ listening (snd (main c file fuel)) = false.
Proof.
  unfold main. destruct (envCheck c file) as [u|e]; [|split; reflexivity].
  assert (H : forall r : Outcome AccountInfo * list Step,
             scheduled_jobs (snd r) = [] /\ listening (snd r) = false ->
             let r' := match r with
                       | (Ok accountInfo, done) =>
                           match initialize c accountInfo with
                           | Threw e => (Failed e, done ++ [Initialize accountInfo])
                           | Returned _ =>
                               match checkClient c with
                               | Threw e =>
                                   (Failed e, done ++ [Initialize accountInfo; CheckClient])
                               | Returned _ =>
                                   (Ok accountInfo,
                                    done ++ [Initialize accountInfo; CheckClient])
                               end
                           end
                       | other => other
                       end in
             scheduled_jobs (snd r') = [] /\ listening (snd r') = false).
  { intros [[info|e|code|] done] [H1 H2]; cbn zeta; cbn [snd] in *; auto.
    destruct (initialize c info); [destruct (checkClient c)|]; cbn [snd];
      rewrite scheduled_jobs_app, listening_app, H1, H2; split; reflexivity. }
  apply H. destruct (configured (getConfigPassword c)) as [p|].
  - destruct (getAccountInfo c 0 file (trim c p)); split; reflexivity.
  - apply (password_loop_quiet c file fuel 0 0 [EnvCheck file]).
Qed.

(** X19: typing "q" (white space around it or not) at a prompt ends the
    process with code 0 before the keystore is tried with it: after [m]
    wrong passwords and a "q", [getAccountInfo] has been called [m] times,
    no cron job is scheduled and the probe is not started. *)
Theorem X19_main_quits_on_q :
  forall c file endorse endorseCheck fuel m password,
    configured (getConfigPassword c) = None ->
    envCheck c file = Returned tt ->
    wrong_passwords c file m ->
    getInputPassword c m = Returned password ->
    trim c password = "q" ->
    (m < fuel)%nat ->
    let r := main c file fuel in
    fst r = Exited 0
    /\ last (snd r) Prompt = Exit 0
    /\ List.length (keystore_calls (snd r)) = m
    /\ entry c file endorse endorseCheck fuel = snd r.
Proof.
  intros c file e1 e2 fuel m p Hc He Hw Hp Hq Hf. cbn zeta.
  unfold entry, main. rewrite He, Hc.
  destruct (password_loop_wrong c file m fuel 0 [EnvCheck file]) as [mid [Heq [H1 [H2 H3]]]].
  - intros j Hj. apply (Hw j Hj).
  - lia.
  - rewrite Heq. cbn [Nat.add].
    destruct (fuel - m)%nat as [|fuel'] eqn:Hfuel; [lia|].
    cbn [password_loop]. rewrite Hp, Hq. cbn [String.eqb Ascii.eqb Bool.eqb fst snd].
    split; [reflexivity|]. split; [|split; [|reflexivity]].
    + change [Prompt; Exit 0] with ([Prompt] ++ [Exit 0]).
      rewrite app_assoc. apply last_last.
    + rewrite !keystore_calls_app, !length_app, H2. cbn. lia.
Qed.

Lemma X19_main_quits_on_q_witness :
  let r := main (operator None ["guess"; " q "] "s3cret") "keystore.json" 5 in
  fst r = Exited 0
  /\ last (snd r) Prompt = Exit 0
  /\ List.length (keystore_calls (snd r)) = 1%nat
  /\ entry (operator None ["guess"; " q "] "s3cret") "keystore.json"
           "*/10 * * * * *" "*/5 * * * * *" 5
     = snd r.
Proof.
  apply (X19_main_quits_on_q
           (operator None ["guess"; " q "] "s3cret") "keystore.json"
           "*/10 * * * * *" "*/5 * * * * *" 5%nat 1%nat " q " eq_refl eq_refl).
  - intros j Hj. destruct j as [|j]; [|lia].
    exists "guess", (mkError (Some "invalid password")).
    repeat split. discriminate.
  - reflexivity.
  - reflexivity.
  - lia.
Defined.

(** X20: the entry point.  The two cron jobs are scheduled only once
    [main] has returned, the regular job first, and the probe is started
    only once both are scheduled.  When [main] throws, the error is logged
    and nothing is scheduled or started; the same when the process was
    ended by [main]. *)
Theorem X20_entry_point :
  forall c file endorse endorseCheck fuel,
    let r := main c file fuel in
    let steps := entry c file endorse endorseCheck fuel in
    (forall accountInfo,
        fst r = Ok accountInfo ->
        cron_schedule c endorse = Returned tt ->
        cron_schedule c endorseCheck = Returned tt ->
        steps = snd r ++ [Schedule endorse EndorseJob;
                          Schedule endorseCheck EndorseCheckJob;
                          Listen PORT])
    /\ (forall e, fst r = Failed e ->
                  steps = snd r ++ [LogError e])
    /\ (scheduled_jobs steps <> [] -> exists accountInfo, fst r = Ok accountInfo)
    /\ (listening steps = true ->
        scheduled_jobs steps = [(endorse, EndorseJob); (endorseCheck, EndorseCheckJob)]).
Proof.
  intros c file e1 e2 fuel. cbn zeta. unfold entry, setupCronJobs.
  destruct (main_quiet c file fuel) as [Hs Hl].
  destruct (main c file fuel) as [[info|e|code|] done]; cbn [fst snd] in *.
  - split; [|split; [|split]].
    + intros info' _ -> ->. reflexivity.
    + intros e He. discriminate He.
    + intros _. exists info. reflexivity.
    + destruct (cron_schedule c e1) as [u1|x1]; [destruct (cron_schedule c e2) as [u2|x2]|];
        rewrite ?listening_app, ?scheduled_jobs_app, ?Hs, ?Hl; cbn;
        intro H; (discriminate H || reflexivity).
  - split; [|split; [|split]].
    + intros info H. discriminate H.
    + intros e' H. injection H as <-. reflexivity.
    + rewrite scheduled_jobs_app, Hs. cbn. congruence.
    + rewrite listening_app, Hl. cbn. discriminate.
  - split; [|split; [|split]]; try (intros; discriminate).
    + rewrite Hs. congruence.
    + rewrite Hl. discriminate.
  - split; [|split; [|split]]; try (intros; discriminate).
    + rewrite Hs. congruence.
    + rewrite Hl. discriminate.
Qed.

Lemma X20_entry_point_witness :
  entry (operator (Some "s3cret") [] "s3cret") "keystore.json"
        "*/10 * * * * *" "*/5 * * * * *" 0
  = [EnvCheck "keystore.json"; GetAccountInfo "keystore.json" "s3cret";
     Initialize (mkAccountInfo "me"); CheckClient;
     Schedule "*/10 * * * * *" EndorseJob; Schedule "*/5 * * * * *" EndorseCheckJob;
     Listen 8081].
Proof.
  apply (proj1 (X20_entry_point (operator (Some "s3cret") [] "s3cret") "keystore.json"
                  "*/10 * * * * *" "*/5 * * * * *" 0%nat)
           (mkAccountInfo "me") eq_refl eq_refl eq_refl).
Defined.

End StartupFacts.

(* ================================================================== *)
(** ** Settings *)

Module SettingsFacts.
Import Settings.

Lemma string_or_nonempty v d : d <> "" -> string_or v d <> "".
Proof.
  intro Hd. unfold string_or. destruct v as [[|ch s]|]; cbn; congruence.
Qed.

(** X21: defaults.  Whatever the environment holds and whatever [parseInt]
    makes of it, [MAX_RETRIES] and [CHUNK_SIZE] are what [parseInt] returns
    when that is neither [0] nor [NaN], and 3 and 262144 otherwise: they
    are never [0] nor [NaN].  [RETRY_INTERVAL_MS] has no such guard: it is
    2000 when the variable is unset or empty, and otherwise what [parseInt]
    returns, [0] and [NaN] included.  The two cron expressions are never
    empty, and every job the entry point schedules carries one of them. *)
Theorem X21_defaults :
  forall parseInt env,
    truthy_number (MAX_RETRIES parseInt env) = true
    /\ truthy_number (CHUNK_SIZE parseInt env) = true
    /\ (truthy_number (parseInt (env "MAX_RETRIES")) = false ->
        MAX_RETRIES parseInt env = Num 3)
    /\ (truthy_number (parseInt (env "MAX_RETRIES")) = true ->
        MAX_RETRIES parseInt env = parseInt (env "MAX_RETRIES"))
    /\ (truthy_number (parseInt (env "CHUNK_SIZE")) = false ->
        CHUNK_SIZE parseInt env = Num 262144)
    /\ (truthy_number (parseInt (env "CHUNK_SIZE")) = true ->
        CHUNK_SIZE parseInt env = parseInt (env "CHUNK_SIZE"))
    /\ (env "RETRY_INTERVAL_MS" = None \/ env "RETRY_INTERVAL_MS" = Some "" ->
        RETRY_INTERVAL_MS parseInt env = Num 2000)
    /\ (forall s, env "RETRY_INTERVAL_MS" = Some s -> s <> "" ->
                  RETRY_INTERVAL_MS parseInt env = parseInt (Some s))
    /\ VALIDATOR_JOBS_ENDORSE env <> ""
    /\ VALIDATOR_JOBS_ENDORSE_CHECK env <> ""
    /\ (forall c fuel expression j,
           In (expression, j) (Startup.scheduled_jobs (start c env fuel)) ->
           expression <> "").
Proof.
  intros parseInt env.
  assert (Hn : forall n d, d <> 0 -> truthy_number (number_or n d) = true).
  { intros n d Hd. unfold number_or. destruct (truthy_number n) eqn:H; [exact H|].
    cbn. apply negb_true_iff, Z.eqb_neq, Hd. }
  assert (H1 : VALIDATOR_JOBS_ENDORSE env <> "")
    by (apply string_or_nonempty; discriminate).
  assert (H2 : VALIDATOR_JOBS_ENDORSE_CHECK env <> "")
    by (apply string_or_nonempty; discriminate).
  split; [apply Hn; discriminate|]. split; [apply Hn; discriminate|].
  split; [intro H; unfold MAX_RETRIES, number_or; rewrite H; reflexivity|].
  split; [intro H; unfold MAX_RETRIES, number_or; rewrite H; reflexivity|].
  split; [intro H; unfold CHUNK_SIZE, number_or; rewrite H; reflexivity|].
  split; [intro H; unfold CHUNK_SIZE, number_or; rewrite H; reflexivity|].
  split; [intros [H|H]; unfold RETRY_INTERVAL_MS; rewrite H; reflexivity|].
  split.
  { intros s H Hs. unfold RETRY_INTERVAL_MS. rewrite H.
    destruct s; [congruence | reflexivity]. }
  split; [exact H1|]. split; [exact H2|].
  intros c fuel expression j Hin. unfold start in Hin.
  destruct (StartupFacts.main_quiet c (VALIDATOR_KEYSTORE_FILE env) fuel) as [Hq _].
  unfold Startup.entry, Startup.setupCronJobs in Hin.
  destruct (Startup.main c (VALIDATOR_KEYSTORE_FILE env) fuel)
    as [[info|e|code|] done]; cbn [snd] in Hq;
    try (destruct (Startup.cron_schedule c (VALIDATOR_JOBS_ENDORSE env));
         [destruct (Startup.cron_schedule c (VALIDATOR_JOBS_ENDORSE_CHECK env))|]);
    rewrite ?StartupFacts.scheduled_jobs_app, ?Hq in Hin; cbn in Hin;
    repeat (destruct Hin as [Hin|Hin]; [injection Hin as <- _; assumption|]);
    try contradiction.
Qed.

Lemma X21_defaults_witness :
  let parseInt : option string -> JsNum := fun _ => NaN in
  let env : ProcessEnv :=
    fun name => if (name =? "RETRY_INTERVAL_MS")%string then Some "soon" else None in
  MAX_RETRIES parseInt env = Num 3
  /\ RETRY_INTERVAL_MS parseInt env = NaN.
Proof.
  cbn zeta. split.
  - apply (proj1 (proj2 (proj2 (X21_defaults (fun _ => NaN)
      (fun name => if (name =? "RETRY_INTERVAL_MS")%string then Some "soon" else None))))).
    reflexivity.
  - apply (proj1 (proj2 (proj2 (proj2 (proj2 (proj2 (proj2 (proj2
      (X21_defaults (fun _ => NaN)
      (fun name => if (name =? "RETRY_INTERVAL_MS")%string then Some "soon" else None)))))))))
             "soon" eq_refl).
    discriminate.
Defined.

End SettingsFacts.
